(** * Voice-message widgets: recorder and player

    A shallow embedding of the React components of the chat UI:

    - [VoicePlayer]   : src/components/Chat/VoicePlayer.jsx
    - [VoiceRecorder] : the four revisions of the recorder component,
        [Preview]  src/components/Chat/VoiceRecorder.jsx, lines 1-330
        [Pausable] src/components/Chat/VoiceRecorder.jsx, lines 332-703
        [AutoSend] unnamed/part_000, lines 1-202
        [Manual]   unnamed/part_000, lines 204-454

    A component is a record of [useState] cells and [useRef] cells; an
    event handler is a transformer of that record.  A handler reads the
    state of the render that created it and its [setX] calls are the
    writes, so state captured by a closure that outlives its render
    (the [onstop] callback, the effect clean-up) is stored next to the
    object that owns the closure.  Host objects (media stream, media
    recorder, audio element, interval timers, pending promises) are
    explicit fields of the world, and what the component shows to the
    outside ([alert], [console.error], [onClose], [onSend]) is appended
    to a log. *)

From Stdlib Require Import ZArith QArith Qround List String Ascii Bool Lia DecimalString.
From stdpp Require Import base list.
Import ListNotations.

Set Implicit Arguments.

(** ** JavaScript numbers

  Numbers are rationals extended with [NaN] and the two infinities.
  Rounding of binary64 and the sign of zero are not modelled: every
  operation is exact. *)

Module JS.

Inductive number :=
| NaN
| Inf (negative : bool)
| Fin (q : Q).

Definition of_Z (z : Z) : number := Fin (inject_Z z).
Definition of_nat (n : nat) : number := of_Z (Z.of_nat n).

Definition Qlt_bool (a b : Q) : bool := negb (Qle_bool b a).

(** [isNaN(x)] *)
Definition isNaN (x : number) : bool :=
  match x with NaN => true | _ => false end.

(** [x === y] *)
Definition strict_eq (x y : number) : bool :=
  match x, y with
  | Fin a, Fin b => Qeq_bool a b
  | Inf s, Inf t => Bool.eqb s t
  | _, _ => false
  end.

(** [x > y] *)
Definition gt (x y : number) : bool :=
  match x, y with
  | Fin a, Fin b => Qlt_bool b a
  | Inf false, Fin _ | Inf false, Inf true | Fin _, Inf true => true
  | _, _ => false
  end.

(** [x - y] *)
Definition sub (x y : number) : number :=
  match x, y with
  | Fin a, Fin b => Fin (a - b)
  | Inf s, Fin _ => Inf s
  | Fin _, Inf t => Inf (negb t)
  | Inf s, Inf t => if Bool.eqb s t then NaN else Inf s
  | _, _ => NaN
  end.

(** [x * y] *)
Definition mul (x y : number) : number :=
  match x, y with
  | Fin a, Fin b => Fin (a * b)
  | Inf s, Fin b | Fin b, Inf s =>
      if Qeq_bool b 0 then NaN else Inf (xorb s (Qlt_bool b 0))
  | Inf s, Inf t => Inf (xorb s t)
  | _, _ => NaN
  end.

(** [x / y] *)
Definition div (x y : number) : number :=
  match x, y with
  | Fin a, Fin b =>
      if Qeq_bool b 0
      then (if Qeq_bool a 0 then NaN else Inf (Qlt_bool a 0))
      else Fin (a / b)
  | Inf s, Fin b => Inf (xorb s (Qlt_bool b 0))
  | Fin _, Inf _ => Fin 0
  | _, _ => NaN
  end.

(** Rounding towards zero, as [%] uses it. *)
Definition Qtrunc (q : Q) : Z :=
  if Qle_bool 0 q then Qfloor q else Qceiling q.

(** [x % y]: the remainder has the sign of the dividend. *)
Definition rem (x y : number) : number :=
  match x, y with
  | Fin a, Fin b =>
      if Qeq_bool b 0 then NaN
      else Fin (a - b * inject_Z (Qtrunc (a / b)))
  | Fin a, Inf _ => Fin a
  | _, _ => NaN
  end.

(** [Math.floor(x)] *)
Definition Math_floor (x : number) : number :=
  match x with
  | Fin q => of_Z (Qfloor q)
  | _ => x
  end.

Definition is_integer (q : Q) : bool := Qeq_bool q (inject_Z (Qfloor q)).

Definition decimal (z : Z) : string := NilZero.string_of_int (Z.to_int z).

(** [String.prototype.padStart(n, c)] for a one-character filler. *)
Definition padStart (n : nat) (c : ascii) (s : string) : string :=
  String.append (string_of_list_ascii (repeat c (n - String.length s))) s.

Section ToString.

(** [Number.prototype.toString] prints an integer below 10^21 in
    magnitude as its decimal digits.  Everything else finite (a
    fraction, a larger magnitude) is printed by the host's
    shortest-round-trip algorithm, which is taken as given. *)
Variable Number_toString_other : Q -> string.

Definition toString (x : number) : string :=
  match x with
  | NaN => "NaN"
  | Inf false => "Infinity"
  | Inf true => "-Infinity"
  | Fin q =>
      if is_integer q && (Z.abs (Qfloor q) <? 10 ^ 21)%Z
      then decimal (Qfloor q)
      else Number_toString_other q
  end.

End ToString.

End JS.

(** ** Host values shared by the two components *)

(** A [Blob]: its byte count and its MIME type. *)
Module Blob.
Record t := { size : nat; type : string }.
End Blob.

(** The string [URL.createObjectURL] returns, never empty. *)
Inductive objectURL := BlobURL (id : nat).

(** The fields of an [HTMLAudioElement] the components read or write.
  Assigning [currentTime] stores the assigned number; what the host's
  seek algorithm does with it afterwards is reported by the next
  [timeupdate]. *)
Module Audio.
Record t := {
  muted : bool;
  currentTime : JS.number;
  duration : JS.number;
  paused : bool }.

Definition fresh : t :=
  {| muted := false; currentTime := JS.of_nat 0; duration := JS.NaN; paused := true |}.

Definition set_muted (b : bool) (a : t) : t :=
  {| muted := b; currentTime := currentTime a; duration := duration a; paused := paused a |}.
Definition set_currentTime (x : JS.number) (a : t) : t :=
  {| muted := muted a; currentTime := x; duration := duration a; paused := paused a |}.
Definition set_duration (x : JS.number) (a : t) : t :=
  {| muted := muted a; currentTime := currentTime a; duration := x; paused := paused a |}.
Definition set_paused (b : bool) (a : t) : t :=
  {| muted := muted a; currentTime := currentTime a; duration := duration a; paused := b |}.
End Audio.

(** Object literals: the fields in source order. *)
Module Obj.
Inductive value :=
| Str (s : string)
| Num (n : JS.number)
| BlobV (b : Blob.t)
| Url (u : objectURL).

Definition t := list (string * value).

Fixpoint get (k : string) (o : t) : option value :=
  match o with
  | [] => None
  | (k', v) :: o' => if String.eqb k k' then Some v else get k o'
  end.
End Obj.

(** What a component does to the outside world. *)
Inductive effect :=
| ConsoleError (msg : string)
| ConsoleLog (msg : string)
| Alert (msg : string)
| OnClose
| OnSend (voiceMessage : Obj.t)
| RevokeObjectURL (url : objectURL).

Definition is_send (e : effect) : bool :=
match e with OnSend _ => true | _ => false end.
Definition is_alert (e : effect) : bool :=
match e with Alert _ => true | _ => false end.
Definition is_close (e : effect) : bool :=
match e with OnClose => true | _ => false end.
Definition is_error_log (e : effect) : bool :=
match e with ConsoleError _ => true | _ => false end.

Definition sends (log : list effect) : list Obj.t :=
flat_map (fun e => match e with OnSend m => [m] | _ => [] end) log.

(** ** VoicePlayer.jsx *)

Module VoicePlayer.

(** The [useState] cells, lines 5-9. *)
Record State := {
  isPlaying : bool;
  currentTime : JS.number;
  audioDuration : JS.number;
  isMuted : bool;
  isLoading : bool }.

(** The component instance: state, [audioRef], the [play()] promises
    not yet settled, and the log. *)
Record World := {
  state : State;
  audioRef : option Audio.t;
  pendingPlay : nat;
  log : list effect }.

Definition setIsPlaying (b : bool) (w : World) : World :=
  {| state := {| isPlaying := b; currentTime := currentTime (state w);
                 audioDuration := audioDuration (state w);
                 isMuted := isMuted (state w); isLoading := isLoading (state w) |};
     audioRef := audioRef w; pendingPlay := pendingPlay w; log := log w |}.
Definition setCurrentTime (x : JS.number) (w : World) : World :=
  {| state := {| isPlaying := isPlaying (state w); currentTime := x;
                 audioDuration := audioDuration (state w);
                 isMuted := isMuted (state w); isLoading := isLoading (state w) |};
     audioRef := audioRef w; pendingPlay := pendingPlay w; log := log w |}.
Definition setAudioDuration (x : JS.number) (w : World) : World :=
  {| state := {| isPlaying := isPlaying (state w); currentTime := currentTime (state w);
                 audioDuration := x;
                 isMuted := isMuted (state w); isLoading := isLoading (state w) |};
     audioRef := audioRef w; pendingPlay := pendingPlay w; log := log w |}.
Definition setIsMuted (b : bool) (w : World) : World :=
  {| state := {| isPlaying := isPlaying (state w); currentTime := currentTime (state w);
                 audioDuration := audioDuration (state w);
                 isMuted := b; isLoading := isLoading (state w) |};
     audioRef := audioRef w; pendingPlay := pendingPlay w; log := log w |}.
Definition setIsLoading (b : bool) (w : World) : World :=
  {| state := {| isPlaying := isPlaying (state w); currentTime := currentTime (state w);
                 audioDuration := audioDuration (state w);
                 isMuted := isMuted (state w); isLoading := b |};
     audioRef := audioRef w; pendingPlay := pendingPlay w; log := log w |}.
Definition set_audio (a : Audio.t) (w : World) : World :=
  {| state := state w; audioRef := Some a; pendingPlay := pendingPlay w; log := log w |}.
Definition set_pendingPlay (n : nat) (w : World) : World :=
  {| state := state w; audioRef := audioRef w; pendingPlay := n; log := log w |}.
Definition emit (e : effect) (w : World) : World :=
  {| state := state w; audioRef := audioRef w; pendingPlay := pendingPlay w;
     log := log w ++ [e] |}.

(** The mounted component before any event: line 102 renders the
    [<audio>] element, so [audioRef.current] is set. *)
Definition initial : World :=
  {| state := {| isPlaying := false; currentTime := JS.of_nat 0;
                 audioDuration := JS.of_nat 0; isMuted := false; isLoading := true |};
     audioRef := Some Audio.fresh; pendingPlay := 0; log := [] |}.

(** Lines 17-20. *)
Definition handleLoadedMetadata (w : World) : World :=
  match audioRef w with
  | None => w
  | Some audio => setIsLoading false (setAudioDuration (Audio.duration audio) w)
  end.

(** Lines 22-24. *)
Definition handleTimeUpdate (w : World) : World :=
  match audioRef w with
  | None => w
  | Some audio => setCurrentTime (Audio.currentTime audio) w
  end.

(** Lines 26-30. *)
Definition handleEnded (w : World) : World :=
  match audioRef w with
  | None => w
  | Some audio =>
      set_audio (Audio.set_currentTime (JS.of_nat 0) audio)
        (setCurrentTime (JS.of_nat 0) (setIsPlaying false w))
  end.

(** Lines 32-34. *)
Definition handleCanPlay (w : World) : World :=
  match audioRef w with
  | None => w
  | Some _ => setIsLoading false w
  end.

(** Lines 36-39. *)
Definition handleError (w : World) : World :=
  match audioRef w with
  | None => w
  | Some _ => emit (ConsoleError "Audio failed to load") (setIsLoading false w)
  end.

(** Lines 56-69.  [audio.play()] leaves a promise pending; its
    [catch] callback is [play_rejected]. *)
Definition togglePlayPause (w : World) : World :=
  match audioRef w with
  | None => w
  | Some audio =>
      if isPlaying (state w)
      then setIsPlaying false (set_audio (Audio.set_paused true audio) w)
      else setIsPlaying true
             (set_pendingPlay (S (pendingPlay w))
                (set_audio (Audio.set_paused false audio) w))
  end.

(** Lines 64-66, the callback given to [catch]. *)
Definition play_rejected (w : World) : World :=
  emit (ConsoleError "Audio play failed:") w.

(** Lines 71-77. *)
Definition toggleMute (w : World) : World :=
  match audioRef w with
  | None => w
  | Some audio =>
      setIsMuted (negb (isMuted (state w)))
        (set_audio (Audio.set_muted (negb (isMuted (state w))) audio) w)
  end.

(** Lines 79-89.  [clientX] is the pointer position, [left] and
    [width] come from [getBoundingClientRect()]. *)
Definition handleSeek (clientX left width : JS.number) (w : World) : World :=
  match audioRef w with
  | None => w
  | Some audio =>
      if JS.strict_eq (audioDuration (state w)) (JS.of_nat 0) then w
      else
        let clickX := JS.sub clientX left in
        let newTime := JS.mul (JS.div clickX width) (audioDuration (state w)) in
        setCurrentTime newTime (set_audio (Audio.set_currentTime newTime audio) w)
  end.

(** Line 98. *)
Definition progress (w : World) : JS.number :=
  if JS.gt (audioDuration (state w)) (JS.of_nat 0)
  then JS.mul (JS.div (currentTime (state w)) (audioDuration (state w))) (JS.of_nat 100)
  else JS.of_nat 0.

Section FormatTime.
Variable Number_toString_other : Q -> string.

(** Lines 91-96. *)
Definition formatTime (seconds : JS.number) : string :=
  if JS.isNaN seconds || JS.strict_eq seconds (JS.of_nat 0) then "0:00"
  else
    let mins := JS.Math_floor (JS.div seconds (JS.of_nat 60)) in
    let secs := JS.Math_floor (JS.rem seconds (JS.of_nat 60)) in
    String.append (JS.toString Number_toString_other mins)
      (String.append ":"
         (JS.padStart 2 "0" (JS.toString Number_toString_other secs))).
End FormatTime.

(** What can happen to a mounted player.  The host events carry the
    value the element reports; the play button is disabled while
    [isLoading] (line 107). *)
Inductive event :=
| LoadedMetadata (duration : JS.number)
| TimeUpdate (position : JS.number)
| Ended
| CanPlay
| Error
| PlayRejected
| ClickPlayPause
| ClickMute
| ClickSeek (clientX left width : JS.number).

Definition host_set (f : Audio.t -> Audio.t) (w : World) : World :=
  match audioRef w with
  | None => w
  | Some audio => set_audio (f audio) w
  end.

Definition step (e : event) (w : World) : World :=
  match e with
  | LoadedMetadata d => handleLoadedMetadata (host_set (Audio.set_duration d) w)
  | TimeUpdate t => handleTimeUpdate (host_set (Audio.set_currentTime t) w)
  | Ended => handleEnded (host_set (Audio.set_paused true) w)
  | CanPlay => handleCanPlay w
  | Error => handleError w
  | PlayRejected =>
      match pendingPlay w with
      | O => w
      | S n => play_rejected (set_pendingPlay n w)
      end
  | ClickPlayPause => if isLoading (state w) then w else togglePlayPause w
  | ClickMute => toggleMute w
  | ClickSeek x l wd => handleSeek x l wd w
  end.

Definition run (es : list event) (w : World) : World :=
  fold_left (fun w e => step e w) es w.

Inductive reachable : World -> Prop :=
| reachable_initial : reachable initial
| reachable_step e w : reachable w -> reachable (step e w).

End VoicePlayer.

(** ** The recorder component, in its four revisions *)

Module VoiceRecorder.

Inductive revision :=
| Preview    (* VoiceRecorder.jsx 1-330: stop, listen, send *)
| Pausable   (* VoiceRecorder.jsx 332-703: pause, resume, re-record *)
| AutoSend   (* part_000 1-202: the message is sent when recording stops *)
| Manual.    (* part_000 204-454: stop, then send *)

(** What the browser offers; the same for the whole life of a page. *)
Record Browser := {
  has_mediaDevices : bool;               (* is [navigator.mediaDevices] there? *)
  isTypeSupported : string -> bool;      (* [MediaRecorder.isTypeSupported] *)
  default_mimeType : string;             (* the recorder's type when none was asked for *)
  Number_toString_other : Q -> string }. (* see [JS.toString] *)

(** The [useState] cells.  [isPaused] exists in [Pausable] only; the
    last four cells exist in [Preview] and [Pausable] only.  A cell a
    revision does not have keeps its initial value. *)
Record State := {
  isRecording : bool;
  isPaused : bool;
  recordingTime : nat;
  audioBlob : option Blob.t;
  audioUrl : option objectURL;
  isPlaying : bool;
  playbackTime : JS.number;
  duration : JS.number }.

Inductive RecordingState := inactive | recording | paused.

(** A [MediaRecorder] built by [startRecording].  Its [onstop] callback
    is a closure of the render that called [startRecording]: the
    [recordingTime] it mentions is the value of that render. *)
Record MediaRecorder := {
  rec_state : RecordingState;
  rec_mimeType : string;
  onstop_recordingTime : nat;
  stop_queued : bool }.   (* [stop()] was called, the stop event is still to come *)

(** A [MediaStream]: one flag per track, [true] while the track is live. *)
Definition MediaStream := list bool.

(** The [useRef] cells. *)
Record Refs := {
  mediaRecorderRef : option nat;     (* index into [recorders] *)
  audioRef : option Audio.t;
  chunksRef : list Blob.t;
  timerRef : option nat;             (* an interval id *)
  streamRef : option nat }.          (* index into [streams] *)

(** Host objects made for this instance and tasks the host still owes it. *)
Record Host := {
  streams : list MediaStream;
  recorders : list MediaRecorder;
  intervals : list nat;              (* ids of the running intervals *)
  next_interval : nat;
  next_url : nat;
  pendingMedia : list nat;           (* [getUserMedia] promises, each with the
                                        [recordingTime] its continuation closes over *)
  pendingTimeouts : list (Blob.t * nat);  (* [AutoSend]: blob and [recordingTime]
                                             the timeout callback closes over *)
  pendingProbes : nat;               (* [Pausable]: [new Audio(url)] awaiting metadata *)
  pendingPlay : nat }.               (* [play()] promises *)

Record World := {
  isOpen : bool;                     (* the prop *)
  mounted : bool;
  state : State;
  refs : Refs;
  host : Host;
  cleanup_audioUrl : option objectURL;  (* [audioUrl] of the render whose effect
                                           returned the current clean-up, line 26 *)
  log : list effect }.

Definition action := World -> World.
Definition skip : action := fun w => w.
Definition and_then (f g : action) : action := fun w => g (f w).
Declare Scope action_scope.
Delimit Scope action_scope with act.
Bind Scope action_scope with action.
Notation "f ;; g" := (and_then f g) (at level 100, g at level 200, right associativity) : action_scope.
Definition read {A : Type} (get : World -> A) (k : A -> action) : action :=
  fun w => k (get w) w.

Definition with_state (f : State -> State) : action := fun w =>
  {| isOpen := isOpen w; mounted := mounted w; state := f (state w); refs := refs w;
     host := host w; cleanup_audioUrl := cleanup_audioUrl w; log := log w |}.
Definition with_refs (f : Refs -> Refs) : action := fun w =>
  {| isOpen := isOpen w; mounted := mounted w; state := state w; refs := f (refs w);
     host := host w; cleanup_audioUrl := cleanup_audioUrl w; log := log w |}.
Definition with_host (f : Host -> Host) : action := fun w =>
  {| isOpen := isOpen w; mounted := mounted w; state := state w; refs := refs w;
     host := f (host w); cleanup_audioUrl := cleanup_audioUrl w; log := log w |}.
Definition emit (e : effect) : action := fun w =>
  {| isOpen := isOpen w; mounted := mounted w; state := state w; refs := refs w;
     host := host w; cleanup_audioUrl := cleanup_audioUrl w; log := log w ++ [e] |}.
Definition set_isOpen (b : bool) : action := fun w =>
  {| isOpen := b; mounted := mounted w; state := state w; refs := refs w;
     host := host w; cleanup_audioUrl := cleanup_audioUrl w; log := log w |}.
Definition set_mounted (b : bool) : action := fun w =>
  {| isOpen := isOpen w; mounted := b; state := state w; refs := refs w;
     host := host w; cleanup_audioUrl := cleanup_audioUrl w; log := log w |}.
Definition set_cleanup_audioUrl (u : option objectURL) : action := fun w =>
  {| isOpen := isOpen w; mounted := mounted w; state := state w; refs := refs w;
     host := host w; cleanup_audioUrl := u; log := log w |}.

(** The state setters. *)
Definition setIsRecording (b : bool) : action := with_state (fun s =>
  {| isRecording := b; isPaused := isPaused s; recordingTime := recordingTime s;
     audioBlob := audioBlob s; audioUrl := audioUrl s; isPlaying := isPlaying s;
     playbackTime := playbackTime s; duration := duration s |}).
Definition setIsPaused (b : bool) : action := with_state (fun s =>
  {| isRecording := isRecording s; isPaused := b; recordingTime := recordingTime s;
     audioBlob := audioBlob s; audioUrl := audioUrl s; isPlaying := isPlaying s;
     playbackTime := playbackTime s; duration := duration s |}).
Definition setRecordingTime (f : nat -> nat) : action := with_state (fun s =>
  {| isRecording := isRecording s; isPaused := isPaused s; recordingTime := f (recordingTime s);
     audioBlob := audioBlob s; audioUrl := audioUrl s; isPlaying := isPlaying s;
     playbackTime := playbackTime s; duration := duration s |}).
Definition setAudioBlob (b : option Blob.t) : action := with_state (fun s =>
  {| isRecording := isRecording s; isPaused := isPaused s; recordingTime := recordingTime s;
     audioBlob := b; audioUrl := audioUrl s; isPlaying := isPlaying s;
     playbackTime := playbackTime s; duration := duration s |}).
Definition setAudioUrl (u : option objectURL) : action := with_state (fun s =>
  {| isRecording := isRecording s; isPaused := isPaused s; recordingTime := recordingTime s;
     audioBlob := audioBlob s; audioUrl := u; isPlaying := isPlaying s;
     playbackTime := playbackTime s; duration := duration s |}).
Definition setIsPlaying (b : bool) : action := with_state (fun s =>
  {| isRecording := isRecording s; isPaused := isPaused s; recordingTime := recordingTime s;
     audioBlob := audioBlob s; audioUrl := audioUrl s; isPlaying := b;
     playbackTime := playbackTime s; duration := duration s |}).
Definition setPlaybackTime (x : JS.number) : action := with_state (fun s =>
  {| isRecording := isRecording s; isPaused := isPaused s; recordingTime := recordingTime s;
     audioBlob := audioBlob s; audioUrl := audioUrl s; isPlaying := isPlaying s;
     playbackTime := x; duration := duration s |}).
Definition setDuration (x : JS.number) : action := with_state (fun s =>
  {| isRecording := isRecording s; isPaused := isPaused s; recordingTime := recordingTime s;
     audioBlob := audioBlob s; audioUrl := audioUrl s; isPlaying := isPlaying s;
     playbackTime := playbackTime s; duration := x |}).

(** Assignments to the refs. *)
Definition set_mediaRecorderRef (j : option nat) : action := with_refs (fun r =>
  {| mediaRecorderRef := j; audioRef := audioRef r; chunksRef := chunksRef r;
     timerRef := timerRef r; streamRef := streamRef r |}).
Definition set_audioRef (a : option Audio.t) : action := with_refs (fun r =>
  {| mediaRecorderRef := mediaRecorderRef r; audioRef := a; chunksRef := chunksRef r;
     timerRef := timerRef r; streamRef := streamRef r |}).
Definition set_chunksRef (l : list Blob.t) : action := with_refs (fun r =>
  {| mediaRecorderRef := mediaRecorderRef r; audioRef := audioRef r; chunksRef := l;
     timerRef := timerRef r; streamRef := streamRef r |}).
Definition set_timerRef (t : option nat) : action := with_refs (fun r =>
  {| mediaRecorderRef := mediaRecorderRef r; audioRef := audioRef r; chunksRef := chunksRef r;
     timerRef := t; streamRef := streamRef r |}).
Definition set_streamRef (i : option nat) : action := with_refs (fun r =>
  {| mediaRecorderRef := mediaRecorderRef r; audioRef := audioRef r; chunksRef := chunksRef r;
     timerRef := timerRef r; streamRef := i |}).

(** Changes to host objects. *)
Definition with_streams (f : list MediaStream -> list MediaStream) : action := with_host (fun h =>
  {| streams := f (streams h); recorders := recorders h; intervals := intervals h;
     next_interval := next_interval h; next_url := next_url h; pendingMedia := pendingMedia h;
     pendingTimeouts := pendingTimeouts h; pendingProbes := pendingProbes h;
     pendingPlay := pendingPlay h |}).
Definition with_recorders (f : list MediaRecorder -> list MediaRecorder) : action := with_host (fun h =>
  {| streams := streams h; recorders := f (recorders h); intervals := intervals h;
     next_interval := next_interval h; next_url := next_url h; pendingMedia := pendingMedia h;
     pendingTimeouts := pendingTimeouts h; pendingProbes := pendingProbes h;
     pendingPlay := pendingPlay h |}).
Definition with_intervals (f : list nat -> list nat) : action := with_host (fun h =>
  {| streams := streams h; recorders := recorders h; intervals := f (intervals h);
     next_interval := next_interval h; next_url := next_url h; pendingMedia := pendingMedia h;
     pendingTimeouts := pendingTimeouts h; pendingProbes := pendingProbes h;
     pendingPlay := pendingPlay h |}).
Definition set_next_interval (n : nat) : action := with_host (fun h =>
  {| streams := streams h; recorders := recorders h; intervals := intervals h;
     next_interval := n; next_url := next_url h; pendingMedia := pendingMedia h;
     pendingTimeouts := pendingTimeouts h; pendingProbes := pendingProbes h;
     pendingPlay := pendingPlay h |}).
Definition set_next_url (n : nat) : action := with_host (fun h =>
  {| streams := streams h; recorders := recorders h; intervals := intervals h;
     next_interval := next_interval h; next_url := n; pendingMedia := pendingMedia h;
     pendingTimeouts := pendingTimeouts h; pendingProbes := pendingProbes h;
     pendingPlay := pendingPlay h |}).
Definition with_pendingMedia (f : list nat -> list nat) : action := with_host (fun h =>
  {| streams := streams h; recorders := recorders h; intervals := intervals h;
     next_interval := next_interval h; next_url := next_url h; pendingMedia := f (pendingMedia h);
     pendingTimeouts := pendingTimeouts h; pendingProbes := pendingProbes h;
     pendingPlay := pendingPlay h |}).
Definition with_pendingTimeouts (f : list (Blob.t * nat) -> list (Blob.t * nat)) : action :=
  with_host (fun h =>
  {| streams := streams h; recorders := recorders h; intervals := intervals h;
     next_interval := next_interval h; next_url := next_url h; pendingMedia := pendingMedia h;
     pendingTimeouts := f (pendingTimeouts h); pendingProbes := pendingProbes h;
     pendingPlay := pendingPlay h |}).
Definition set_pendingProbes (n : nat) : action := with_host (fun h =>
  {| streams := streams h; recorders := recorders h; intervals := intervals h;
     next_interval := next_interval h; next_url := next_url h; pendingMedia := pendingMedia h;
     pendingTimeouts := pendingTimeouts h; pendingProbes := n;
     pendingPlay := pendingPlay h |}).
Definition set_pendingPlay (n : nat) : action := with_host (fun h =>
  {| streams := streams h; recorders := recorders h; intervals := intervals h;
     next_interval := next_interval h; next_url := next_url h; pendingMedia := pendingMedia h;
     pendingTimeouts := pendingTimeouts h; pendingProbes := pendingProbes h;
     pendingPlay := n |}).

Definition set_rec_state (s : RecordingState) (r : MediaRecorder) : MediaRecorder :=
  {| rec_state := s; rec_mimeType := rec_mimeType r;
     onstop_recordingTime := onstop_recordingTime r; stop_queued := stop_queued r |}.
Definition set_stop_queued (b : bool) (r : MediaRecorder) : MediaRecorder :=
  {| rec_state := rec_state r; rec_mimeType := rec_mimeType r;
     onstop_recordingTime := onstop_recordingTime r; stop_queued := b |}.

Definition is_active (r : MediaRecorder) : bool :=
  match rec_state r with inactive => false | _ => true end.
Definition is_live (s : MediaStream) : bool := existsb (fun live => live) s.

(** *** Host operations *)

(** [mediaRecorder.stop()]: the recorder is inactive at once, the
    [dataavailable] and [stop] events follow as tasks. *)
Definition MediaRecorder_stop (j : nat) : action :=
  with_recorders (alter (fun r => set_stop_queued true (set_rec_state inactive r)) j).

(** [stream.getTracks().forEach(track => track.stop())] *)
Definition stop_tracks (i : nat) : action :=
  with_streams (alter (map (fun _ => false)) i).

(** [clearInterval(id)]; [clearInterval(null)] does nothing. *)
Definition clearInterval (id : option nat) : action :=
  match id with
  | Some n => with_intervals (filter (fun m => m <> n))
  | None => skip
  end.

(** [timerRef.current = setInterval(..., 1000)] *)
Definition setInterval_timerRef : action :=
  read (fun w => next_interval (host w)) (fun id =>
    with_intervals (fun l => l ++ [id]) ;;
    set_next_interval (S id) ;;
    set_timerRef (Some id))%act.

(** [new Blob(chunks, { type })] *)
Definition new_Blob (chunks : list Blob.t) (type : string) : Blob.t :=
  {| Blob.size := list_sum (map Blob.size chunks); Blob.type := type |}.

(** [a || b] on strings. *)
Definition or_else (a b : string) : string :=
  if String.eqb a "" then b else a.

Definition is_some {A : Type} (o : option A) : bool :=
  match o with Some _ => true | None => false end.

Section Component.

Variable browser : Browser.
Variable v : revision.

Definition has_preview : bool :=
  match v with Preview | Pausable => true | _ => false end.

(** *** [formatTime], the same in the four revisions
    (VoiceRecorder.jsx 166-170, 509-513; part_000 120-124, 329-333) *)
Definition formatTime (seconds : JS.number) : string :=
  let mins := JS.Math_floor (JS.div seconds (JS.of_nat 60)) in
  let secs := JS.Math_floor (JS.rem seconds (JS.of_nat 60)) in
  String.append (JS.toString (Number_toString_other browser) mins)
    (String.append ":"
       (JS.padStart 2 "0" (JS.toString (Number_toString_other browser) secs))).

(** *** [cleanup]
    (VoiceRecorder.jsx 41-60, 373-393; part_000 36-48, 239-251).
    [seen_audioUrl] is the [audioUrl] of the render that made this
    [cleanup] closure. *)
Definition cleanup (seen_audioUrl : option objectURL) : action :=
  (read (fun w => mediaRecorderRef (refs w)) (fun ref =>
     match ref with
     | Some j => read (fun w => recorders (host w) !! j) (fun r =>
         match r with
         | Some r => if is_active r then MediaRecorder_stop j else skip
         | None => skip
         end)
     | None => skip
     end) ;;
   read (fun w => streamRef (refs w)) (fun ref =>
     match ref with
     | Some i => stop_tracks i
     | None => skip
     end) ;;
   (if has_preview
    then match seen_audioUrl with
         | Some u => emit (RevokeObjectURL u)
         | None => skip
         end
    else skip) ;;
   read (fun w => timerRef (refs w)) clearInterval ;;
   setIsRecording false ;;
   (match v with Pausable => setIsPaused false | _ => skip end) ;;
   setRecordingTime (fun _ => 0) ;;
   setAudioBlob None ;;
   (if has_preview
    then (setAudioUrl None ;; setIsPlaying false ;;
          setPlaybackTime (JS.of_nat 0) ;; setDuration (JS.of_nat 0))
    else skip) ;;
   set_chunksRef [])%act.

(** *** [startRecording]
    (VoiceRecorder.jsx 62-108, 395-444; part_000 50-108, 253-317) *)

(** The [catch] block. *)
Definition startRecording_catch : action :=
  (emit (ConsoleError "Error starting recording:") ;;
   emit (Alert "Could not access microphone. Please check permissions.") ;;
   emit OnClose)%act.

(** The [mimeType] option given to the [MediaRecorder] constructor;
    [None] is [undefined]. *)
Definition requested_mimeType : option string :=
  (match v with
   | Preview | Pausable =>
       Some (if isTypeSupported browser "audio/webm" then "audio/webm" else "audio/mp4")
   | AutoSend => Some "audio/webm;codecs=opus"
   | Manual =>
       if isTypeSupported browser "audio/webm;codecs=opus" then Some "audio/webm;codecs=opus"
       else if isTypeSupported browser "audio/webm" then Some "audio/webm"
       else if isTypeSupported browser "audio/mp4" then Some "audio/mp4"
       else None
   end)%string.

(** [new MediaRecorder(stream, { mimeType })] throws [NotSupportedError]
    for a type the host cannot record. *)
Definition constructor_throws : bool :=
  match requested_mimeType with
  | Some m => negb (isTypeSupported browser m)
  | None => false
  end.

Definition new_MediaRecorder (seen_recordingTime : nat) : MediaRecorder :=
  {| rec_state := inactive;
     rec_mimeType := match requested_mimeType with
                     | Some m => m
                     | None => default_mimeType browser
                     end;
     onstop_recordingTime := seen_recordingTime;
     stop_queued := false |}.

(** Up to the [await]: the call of [getUserMedia].  Without
    [navigator.mediaDevices] the call itself throws. *)
Definition startRecording (seen : State) : action :=
  if has_mediaDevices browser
  then with_pendingMedia (fun l => l ++ [recordingTime seen])
  else startRecording_catch.

(** After the [await], when the promise resolved with a stream of
    [tracks] live tracks. *)
Definition startRecording_resolved (seen_recordingTime tracks : nat) : action :=
  (read (fun w => length (streams (host w))) (fun i =>
     with_streams (fun l => l ++ [repeat true tracks]) ;;
     set_streamRef (Some i)) ;;
   if constructor_throws then startRecording_catch
   else
     read (fun w => length (recorders (host w))) (fun j =>
       with_recorders (fun l => l ++ [new_MediaRecorder seen_recordingTime]) ;;
       set_mediaRecorderRef (Some j) ;;
       set_chunksRef [] ;;
       with_recorders (alter (set_rec_state recording) j)) ;;   (* [start(...)] *)
     setIsRecording true ;;
     setRecordingTime (fun _ => 0))%act.

(** After the [await], when the promise was rejected. *)
Definition startRecording_rejected : action := startRecording_catch.

(** [mediaRecorder.ondataavailable] *)
Definition ondataavailable (data : Blob.t) : action :=
  if 0 <? Blob.size data
  then read (fun w => chunksRef (refs w)) (fun l => set_chunksRef (l ++ [data]))
  else skip.

(** [URL.createObjectURL(blob)] *)
Definition createObjectURL (k : objectURL -> action) : action :=
  read (fun w => next_url (host w)) (fun n => set_next_url (S n) ;; k (BlobURL n))%act.

Definition voiceMessage_raw (blob : Blob.t) (rawDuration : JS.number) : Obj.t :=
  [ ("type", Obj.Str "voice");
    ("audioBlob", Obj.BlobV blob);
    ("rawDuration", Obj.Num rawDuration);
    ("size", Obj.Num (JS.of_nat (Blob.size blob)));
    ("mimeType", Obj.Str (Blob.type blob)) ]%string.

(** The callback given to [setTimeout] in [AutoSend], part_000 85-97. *)
Definition auto_send (blob : Blob.t) (seen_recordingTime : nat) : action :=
  if 0 <? seen_recordingTime
  then (emit (OnSend (voiceMessage_raw blob (JS.of_nat seen_recordingTime))) ;;
        emit OnClose)%act
  else skip.

(** [mediaRecorder.onstop]
    (VoiceRecorder.jsx 87-98, 420-434; part_000 78-98, 293-303) *)
Definition onstop (r : MediaRecorder) : action :=
  read (fun w => chunksRef (refs w)) (fun chunks =>
    match v with
    | Preview =>
        let blob := new_Blob chunks (or_else (rec_mimeType r) "audio/webm") in
        setAudioBlob (Some blob) ;;
        createObjectURL (fun url => setAudioUrl (Some url)) ;;
        setDuration (JS.of_nat (onstop_recordingTime r))
    | Pausable =>
        let blob := new_Blob chunks (or_else (rec_mimeType r) "audio/webm") in
        setAudioBlob (Some blob) ;;
        createObjectURL (fun url => setAudioUrl (Some url)) ;;
        read (fun w => pendingProbes (host w)) (fun n => set_pendingProbes (S n))
    | AutoSend =>
        let blob := new_Blob chunks "audio/webm;codecs=opus" in
        setAudioBlob (Some blob) ;;
        with_pendingTimeouts (fun l => l ++ [(blob, onstop_recordingTime r)])
    | Manual =>
        let blob := new_Blob chunks (or_else (rec_mimeType r) "audio/webm") in
        setAudioBlob (Some blob) ;;
        emit (ConsoleLog "Recording stopped, blob created:")
    end)%act.

(** [mediaRecorder.onerror], part_000 305-307; the other revisions set
    no handler. *)
Definition onerror : action :=
  match v with
  | Manual => emit (ConsoleError "MediaRecorder error:")
  | _ => skip
  end.

(** The listener of the probe element in [Pausable], lines 431-433. *)
Definition probe_loadedmetadata (d : JS.number) : action := setDuration d.

(** *** [stopRecording]
    (VoiceRecorder.jsx 110-118, 460-469; part_000 110-118, 319-327) *)
Definition stopRecording : action :=
  (read (fun w => mediaRecorderRef (refs w)) (fun ref =>
     match ref with
     | Some j => read (fun w => recorders (host w) !! j) (fun r =>
         match r with
         | Some r => if is_active r then MediaRecorder_stop j else skip
         | None => skip
         end)
     | None => skip
     end) ;;
   read (fun w => streamRef (refs w)) (fun ref =>
     match ref with
     | Some i => stop_tracks i
     | None => skip
     end) ;;
   setIsRecording false ;;
   (match v with Pausable => setIsPaused false | _ => skip end))%act.

(** [pauseRecording] and [resumeRecording], VoiceRecorder.jsx 446-458. *)
Definition pauseRecording : action :=
  read (fun w => mediaRecorderRef (refs w)) (fun ref =>
    match ref with
    | Some j => read (fun w => recorders (host w) !! j) (fun r =>
        match r with
        | Some {| rec_state := recording |} =>
            (with_recorders (alter (set_rec_state paused) j) ;; setIsPaused true)%act
        | _ => skip
        end)
    | None => skip
    end).

Definition resumeRecording : action :=
  read (fun w => mediaRecorderRef (refs w)) (fun ref =>
    match ref with
    | Some j => read (fun w => recorders (host w) !! j) (fun r =>
        match r with
        | Some {| rec_state := paused |} =>
            (with_recorders (alter (set_rec_state recording) j) ;; setIsPaused false)%act
        | _ => skip
        end)
    | None => skip
    end).

(** *** Listening to the recording, [Preview] and [Pausable] *)

(** [playAudio], VoiceRecorder.jsx 120-127 and 471-476.  [Preview]
    gives [play()] a [catch] callback, [Pausable] drops the promise. *)
Definition playAudio : action :=
  read (fun w => audioRef (refs w)) (fun ref =>
    match ref with
    | Some audio =>
        (set_audioRef (Some (Audio.set_paused false audio)) ;;
         read (fun w => pendingPlay (host w)) (fun n => set_pendingPlay (S n)) ;;
         setIsPlaying true)%act
    | None => skip
    end).

(** What runs when the promise of [play()] is rejected. *)
Definition play_rejected : action :=
  match v with
  | Preview => emit (ConsoleError "Audio play failed:")
  | _ => skip
  end.

(** [pauseAudio], VoiceRecorder.jsx 129-134, 478-483. *)
Definition pauseAudio : action :=
  read (fun w => audioRef (refs w)) (fun ref =>
    match ref with
    | Some audio =>
        (set_audioRef (Some (Audio.set_paused true audio)) ;; setIsPlaying false)%act
    | None => skip
    end).

(** [handleAudioTimeUpdate], VoiceRecorder.jsx 136-140, 485-489. *)
Definition handleAudioTimeUpdate : action :=
  read (fun w => audioRef (refs w)) (fun ref =>
    match ref with
    | Some audio => setPlaybackTime (Audio.currentTime audio)
    | None => skip
    end).

(** [handleAudioEnded], VoiceRecorder.jsx 142-148, 491-497. *)
Definition handleAudioEnded : action :=
  (setIsPlaying false ;;
   setPlaybackTime (JS.of_nat 0) ;;
   read (fun w => audioRef (refs w)) (fun ref =>
     match ref with
     | Some audio => set_audioRef (Some (Audio.set_currentTime (JS.of_nat 0) audio))
     | None => skip
     end))%act.

(** [handleAudioLoadedMetadata], VoiceRecorder.jsx 150-154, 600-604. *)
Definition handleAudioLoadedMetadata : action :=
  read (fun w => audioRef (refs w)) (fun ref =>
    match ref with
    | Some audio => setDuration (Audio.duration audio)
    | None => skip
    end).

(** [handleSeek], VoiceRecorder.jsx 156-164, 499-507. *)
Definition handleSeek (seen : State) (clientX left width : JS.number) : action :=
  read (fun w => audioRef (refs w)) (fun ref =>
    match ref with
    | Some audio =>
        if JS.gt (duration seen) (JS.of_nat 0)
        then
          let clickX := JS.sub clientX left in
          let newTime := JS.mul (JS.div clickX width) (duration seen) in
          (set_audioRef (Some (Audio.set_currentTime newTime audio)) ;;
           setPlaybackTime newTime)%act
        else skip
    | None => skip
    end).

(** *** [handleSend]
    (VoiceRecorder.jsx 172-184, 515-527; part_000 335-348).
    [AutoSend] has no such function: its message leaves from [onstop]. *)
Definition handleSend (seen : State) : action :=
  match v with
  | Preview =>
      match audioBlob seen with
      | Some blob =>
          (emit (OnSend (voiceMessage_raw blob (duration seen))) ;; emit OnClose)%act
      | None => skip
      end
  | Pausable =>
      match audioBlob seen, audioUrl seen with
      | Some blob, Some url =>
          (emit (OnSend [ ("type", Obj.Str "voice");
                          ("audioBlob", Obj.BlobV blob);
                          ("audioUrl", Obj.Url url);
                          ("duration", Obj.Str (formatTime (duration seen)));
                          ("size", Obj.Num (JS.of_nat (Blob.size blob))) ]%string) ;;
           emit OnClose)%act
      | _, _ => skip
      end
  | Manual =>
      match audioBlob seen with
      | Some blob =>
          if 0 <? recordingTime seen
          then (emit (ConsoleLog "Sending voice message:") ;;
                emit (OnSend (voiceMessage_raw blob (JS.of_nat (recordingTime seen)))) ;;
                emit OnClose)%act
          else skip
      | None => skip
      end
  | AutoSend => skip
  end.

(** [handleCancel]
    (VoiceRecorder.jsx 186-189, 529-532; part_000 126-129, 350-353) *)
Definition handleCancel (seen : State) : action :=
  (cleanup (audioUrl seen) ;; emit OnClose)%act.

(** The handler of the Re-record button, VoiceRecorder.jsx 680-683. *)
Definition reRecord (seen : State) : action :=
  (cleanup (audioUrl seen) ;; startRecording seen)%act.

(** *** The effects *)

(** The dependencies of the timer effect: [[isRecording]], and
    [[isRecording, isPaused]] in [Pausable]. *)
Definition timer_deps (s : State) : bool * bool :=
  (isRecording s, match v with Pausable => isPaused s | _ => false end).

Definition timer_wanted (s : State) : bool :=
  isRecording s && match v with Pausable => negb (isPaused s) | _ => true end.

(** The timer effect (VoiceRecorder.jsx 29-39, 361-371; part_000 24-34,
    227-237) after a render whose dependencies differ from those of the
    render [before]: first the clean-up of the last run, then the body. *)
Definition timer_effect (before : State) : action :=
  read state (fun now =>
    if decide (timer_deps before = timer_deps now) then skip
    else
      (read (fun w => timerRef (refs w)) clearInterval ;;
       if timer_wanted now then setInterval_timerRef
       else read (fun w => timerRef (refs w)) clearInterval)%act).

(** The callback of the interval. *)
Definition tick : action := setRecordingTime (fun prev => prev + 1).

(** [<audio ref={audioRef}>] is part of the output while the widget is
    open and [audioBlob && audioUrl]; React sets the ref when the
    element appears and clears it when the element goes. *)
Definition audio_rendered (w : World) : bool :=
  has_preview && isOpen w && is_some (audioBlob (state w)) && is_some (audioUrl (state w)).

Definition attach_audioRef : action :=
  read audio_rendered (fun shown =>
    if shown
    then read (fun w => audioRef (refs w)) (fun ref =>
           match ref with
           | Some _ => skip
           | None => set_audioRef (Some Audio.fresh)
           end)
    else set_audioRef None).

Definition set_state (s : State) : action := with_state (fun _ => s).

(** One turn of the event loop: the callback runs against the state of
    the last render, then React renders and runs the effects.  After
    unmounting the setters do nothing. *)
Definition turn (callback : State -> action) : action :=
  fun w =>
    let w' := callback (state w) w in
    if mounted w
    then (timer_effect (state w) ;; attach_audioRef)%act w'
    else set_state (state w) w'.

(** The effect on [isOpen] (VoiceRecorder.jsx 19-27, 351-359; part_000
    14-22, 217-225) when the prop changes to [b]: the clean-up the last
    run returned, then the body. *)
Definition open_effect (b : bool) (seen : State) : action :=
  (read cleanup_audioUrl cleanup ;;
   set_isOpen b ;;
   (if b then startRecording seen else cleanup (audioUrl seen)) ;;
   set_cleanup_audioUrl (audioUrl seen))%act.

(** Unmounting runs the clean-ups of both effects. *)
Definition unmount (_ : State) : action :=
  (read cleanup_audioUrl cleanup ;;
   read (fun w => timerRef (refs w)) clearInterval)%act.

Definition blank (b : bool) : World :=
  {| isOpen := b; mounted := true;
     state := {| isRecording := false; isPaused := false; recordingTime := 0;
                 audioBlob := None; audioUrl := None; isPlaying := false;
                 playbackTime := JS.of_nat 0; duration := JS.of_nat 0 |};
     refs := {| mediaRecorderRef := None; audioRef := None; chunksRef := [];
                timerRef := None; streamRef := None |};
     host := {| streams := []; recorders := []; intervals := []; next_interval := 1;
                next_url := 0; pendingMedia := []; pendingTimeouts := [];
                pendingProbes := 0; pendingPlay := 0 |};
     cleanup_audioUrl := None;
     log := [] |}.

(** The instance after its first render with [isOpen = b] and the first
    run of the effects. *)
Definition mount (b : bool) : World :=
  turn (fun seen =>
          (if b then startRecording seen else cleanup (audioUrl seen)) ;;
          set_cleanup_audioUrl (audioUrl seen))%act
       (blank b).

(** *** Events *)

Inductive event :=
(* the parent *)
| SetOpen (b : bool)
| Unmount
(* the host *)
| MediaGranted (k tracks : nat)    (* the [k]-th pending [getUserMedia] resolves *)
| MediaDenied (k : nat)            (* ... or is rejected *)
| Tick (id : nat)
| DataAvailable (j size : nat)     (* recorder [j] hands over [size] bytes *)
| RecorderStop (j : nat)           (* the [stop] event of recorder [j] *)
| RecorderError (j : nat)
| Timeout (k : nat)                (* the [k]-th pending timeout fires *)
| ProbeLoadedMetadata (d : JS.number)
| AudioLoadedMetadata (d : JS.number)
| AudioTimeUpdate (t : JS.number)
| AudioEnded
| PlayRejected
(* the user *)
| ClickCancel
| ClickStop
| ClickMic
| ClickPause
| ClickResume
| ClickSend
| ClickReRecord
| ClickPlay
| ClickPauseAudio
| ClickSeek (clientX left width : JS.number).

(** What is on the screen, after the JSX of each revision. *)
Definition on_screen (e : event) (w : World) : bool :=
  let s := state w in
  mounted w && isOpen w &&
  match e with
  | ClickCancel => true
  | ClickStop => isRecording s
  | ClickMic =>
      negb (isRecording s) &&
      match v with AutoSend => true | _ => negb (is_some (audioBlob s)) end
  | ClickPause =>
      match v with Pausable => isRecording s && negb (isPaused s) | _ => false end
  | ClickResume =>
      match v with Pausable => isRecording s && isPaused s | _ => false end
  | ClickSend =>
      match v with
      | Preview | Pausable => is_some (audioBlob s)
      | Manual => is_some (audioBlob s) && negb (isRecording s)
      | AutoSend => false
      end
  | ClickReRecord =>
      match v with Pausable => is_some (audioBlob s) | _ => false end
  | ClickPlay => audio_rendered w && negb (isPlaying s)
  | ClickPauseAudio => audio_rendered w && isPlaying s
  | ClickSeek _ _ _ => audio_rendered w
  | _ => false
  end.

Definition recorder_at (j : nat) (w : World) : option MediaRecorder :=
  recorders (host w) !! j.

(** Which events can happen in a world. *)
Definition enabled (e : event) (w : World) : bool :=
  match e with
  | SetOpen b => mounted w && negb (Bool.eqb b (isOpen w))
  | Unmount => mounted w
  | MediaGranted k _ | MediaDenied k => is_some (pendingMedia (host w) !! k)
  | Tick id => bool_decide (id ∈ intervals (host w))
  | DataAvailable j _ =>
      match recorder_at j w with
      | Some r => match rec_state r with recording => true | _ => stop_queued r end
      | None => false
      end
  | RecorderStop j =>
      match recorder_at j w with Some r => stop_queued r | None => false end
  | RecorderError j =>
      match recorder_at j w with Some r => is_active r | None => false end
  | Timeout k => is_some (pendingTimeouts (host w) !! k)
  | ProbeLoadedMetadata _ => 0 <? pendingProbes (host w)
  | AudioLoadedMetadata _ | AudioTimeUpdate _ | AudioEnded => is_some (audioRef (refs w))
  | PlayRejected => 0 <? pendingPlay (host w)
  | _ => on_screen e w
  end.

Definition host_sets_audio (f : Audio.t -> Audio.t) : action :=
  read (fun w => audioRef (refs w)) (fun ref =>
    match ref with
    | Some audio => set_audioRef (Some (f audio))
    | None => skip
    end).

(** The callback an enabled event runs. *)
Definition callback (e : event) (seen : State) : action :=
  match e with
  | SetOpen b => open_effect b seen
  | Unmount => unmount seen
  | MediaGranted k tracks =>
      read (fun w => pendingMedia (host w) !! k) (fun p =>
        match p with
        | Some seen_recordingTime =>
            (with_pendingMedia (delete k) ;;
             startRecording_resolved seen_recordingTime tracks)%act
        | None => skip
        end)
  | MediaDenied k => (with_pendingMedia (delete k) ;; startRecording_rejected)%act
  | Tick _ => tick
  | DataAvailable j size =>
      read (recorder_at j) (fun r =>
        match r with
        | Some r => ondataavailable {| Blob.size := size; Blob.type := rec_mimeType r |}
        | None => skip
        end)
  | RecorderStop j =>
      read (recorder_at j) (fun r =>
        match r with
        | Some r => (with_recorders (alter (set_stop_queued false) j) ;; onstop r)%act
        | None => skip
        end)
  | RecorderError _ => onerror
  | Timeout k =>
      match v with
      | AutoSend =>
          read (fun w => pendingTimeouts (host w) !! k) (fun p =>
            match p with
            | Some (blob, seen_recordingTime) =>
                (with_pendingTimeouts (delete k) ;; auto_send blob seen_recordingTime)%act
            | None => skip
            end)
      | _ => skip
      end
  | ProbeLoadedMetadata d =>
      match v with
      | Pausable =>
          (read (fun w => pendingProbes (host w)) (fun n => set_pendingProbes (pred n)) ;;
           probe_loadedmetadata d)%act
      | _ => skip
      end
  | AudioLoadedMetadata d =>
      (host_sets_audio (Audio.set_duration d) ;; handleAudioLoadedMetadata)%act
  | AudioTimeUpdate t =>
      (host_sets_audio (Audio.set_currentTime t) ;; handleAudioTimeUpdate)%act
  | AudioEnded => (host_sets_audio (Audio.set_paused true) ;; handleAudioEnded)%act
  | PlayRejected =>
      (read (fun w => pendingPlay (host w)) (fun n => set_pendingPlay (pred n)) ;;
       play_rejected)%act
  | ClickCancel => handleCancel seen
  | ClickStop => stopRecording
  | ClickMic => startRecording seen
  | ClickPause => pauseRecording
  | ClickResume => resumeRecording
  | ClickSend => handleSend seen
  | ClickReRecord => reRecord seen
  | ClickPlay => playAudio
  | ClickPauseAudio => pauseAudio
  | ClickSeek x l wd => handleSeek seen x l wd
  end.

Definition step (e : event) : action :=
  fun w =>
    if enabled e w
    then match e with
         | Unmount => set_mounted false (set_state (state w) (unmount (state w) w))
         | _ => turn (callback e) w
         end
    else w.

Definition run (es : list event) : action :=
  fun w => fold_left (fun w e => step e w) es w.

(** The worlds an instance can be in. *)
Inductive reachable : World -> Prop :=
| reachable_mount b : reachable (mount b)
| reachable_step e w : reachable w -> reachable (step e w).

(** A start is requested: these events call [startRecording]. *)
Definition requests_start (e : event) : bool :=
  match e with
  | SetOpen true | ClickMic | ClickReRecord => true
  | _ => false
  end.

(** The worlds an instance can be in when no start is requested while
    an earlier request is still waiting for the host's answer. *)
Inductive reachable_one_at_a_time : World -> Prop :=
| one_mount b : reachable_one_at_a_time (mount b)
| one_step e w :
    reachable_one_at_a_time w ->
    (requests_start e = true -> pendingMedia (host w) = []) ->
    reachable_one_at_a_time (step e w).

End Component.

(** The capture streams with a live track, and the recorders that are
    recording or paused. *)
Definition live_streams (w : World) : list nat :=
  List.filter (fun i => match streams (host w) !! i with
                        | Some s => is_live s
                        | None => false
                        end)
         (List.seq 0 (length (streams (host w)))).

Definition active_recorders (w : World) : list nat :=
  List.filter (fun j => match recorders (host w) !! j with
                        | Some r => is_active r
                        | None => false
                        end)
         (List.seq 0 (length (recorders (host w)))).


(** A browser with a microphone that records WebM/Opus, for the
    examples. *)
Definition chromium : Browser :=
  {| has_mediaDevices := true;
     isTypeSupported := fun type =>
       (String.eqb type "audio/webm" || String.eqb type "audio/webm;codecs=opus")%string;
     default_mimeType := "audio/webm;codecs=opus";
     Number_toString_other := fun _ => EmptyString |}.

End VoiceRecorder.

(** * Verification *)

From Stdlib Require Import Lqa.

Import VoiceRecorder.

(** ** Definitions used by the statements and the proofs *)



(** The mute flag of the element follows the [isMuted] cell. *)
Definition mute_in_sync (w : VoicePlayer.World) : Prop :=
  forall audio,
    VoicePlayer.audioRef w = Some audio ->
    Audio.muted audio = VoicePlayer.isMuted (VoicePlayer.state w).

Definition preserves (P : World -> Prop) (a : action) : Prop :=
  forall w, P w -> P (a w).

Definition on_log (Q : list effect -> Prop) : World -> Prop := fun w => Q (log w).

(** The shape of a voice message, by revision: [type] is "voice",
    [size] is the byte count of [audioBlob]; [Pausable] adds [audioUrl]
    and the formatted [duration], the others add the number
    [rawDuration] and the [mimeType] of the blob. *)
Definition message_shape (browser : Browser) (v : revision) (m : Obj.t) : Prop :=
  exists blob : Blob.t,
    Obj.get "type" m = Some (Obj.Str "voice") /\
    Obj.get "audioBlob" m = Some (Obj.BlobV blob) /\
    Obj.get "size" m = Some (Obj.Num (JS.of_nat (Blob.size blob))) /\
    match v with
    | Pausable =>
        (exists url, Obj.get "audioUrl" m = Some (Obj.Url url)) /\
        (exists d, Obj.get "duration" m = Some (Obj.Str (formatTime browser d))) /\
        Obj.get "rawDuration" m = None /\
        Obj.get "mimeType" m = None
    | _ =>
        (exists n, Obj.get "rawDuration" m = Some (Obj.Num n)) /\
        Obj.get "mimeType" m = Some (Obj.Str (Blob.type blob))
    end.

Definition sends_well_shaped (browser : Browser) (v : revision) (l : list effect) : Prop :=
  Forall (message_shape browser v) (sends l).

(** ** The recording session of an instance

    For each stream whether it has a live track, for each recorder
    whether it is recording or paused, the two refs, the pending
    requests, and whether the widget is mounted and says it records. *)
Record Session := {
  live : list bool;
  active : list bool;
  held_stream : option nat;
  held_recorder : option nat;
  requests : list nat;
  is_mounted : bool;
  says_recording : bool }.

Definition session (w : World) : Session :=
  {| live := is_live <$> streams (host w);
     active := is_active <$> recorders (host w);
     held_stream := streamRef (refs w);
     held_recorder := mediaRecorderRef (refs w);
     requests := pendingMedia (host w);
     is_mounted := mounted w;
     says_recording := isRecording (state w) |}.

(** An action that does not touch the session. *)
Definition frame (a : action) : Prop := forall w, session (a w) = session w.

(** The events that leave the session alone. *)
Definition quiet_event (e : event) : bool :=
  match e with
  | Tick _ | DataAvailable _ _ | RecorderStop _ | RecorderError _ | Timeout _
  | ProbeLoadedMetadata _ | AudioLoadedMetadata _ | AudioTimeUpdate _ | AudioEnded
  | PlayRejected | ClickSend | ClickPlay | ClickPauseAudio | ClickSeek _ _ _ => true
  | _ => false
  end.

Definition release (held : option nat) (l : list bool) : list bool :=
  match held with
  | Some i => alter (fun _ => false) i l
  | None => l
  end.

(** The held stream and recorder are stopped. *)
Definition released (s : Session) : Session :=
  {| live := release (held_stream s) (live s);
     active := release (held_recorder s) (active s);
     held_stream := held_stream s;
     held_recorder := held_recorder s;
     requests := requests s;
     is_mounted := is_mounted s;
     says_recording := false |}.

Definition with_requests (f : list nat -> list nat) (s : Session) : Session :=
  {| live := live s; active := active s; held_stream := held_stream s;
     held_recorder := held_recorder s; requests := f (requests s);
     is_mounted := is_mounted s; says_recording := says_recording s |}.

(** A new stream and a new recorder, both held, and the widget records. *)
Definition resolved (tracks : nat) (s : Session) : Session :=
  {| live := live s ++ [is_live (repeat true tracks)];
     active := active s ++ [true];
     held_stream := Some (length (live s));
     held_recorder := Some (length (active s));
     requests := requests s;
     is_mounted := is_mounted s;
     says_recording := true |}.

(** [maps a f]: the action [a] changes the session as [f] says. *)
Definition maps (a : action) (f : Session -> Session) : Prop :=
  forall w, session (a w) = f (session w).

Definition with_says_recording (b : bool) (s : Session) : Session :=
  {| live := live s; active := active s; held_stream := held_stream s;
     held_recorder := held_recorder s; requests := requests s;
     is_mounted := is_mounted s; says_recording := b |}.

Definition stop_held_recorder (s : Session) : Session :=
  {| live := live s; active := release (held_recorder s) (active s);
     held_stream := held_stream s; held_recorder := held_recorder s;
     requests := requests s; is_mounted := is_mounted s;
     says_recording := says_recording s |}.

Definition stop_held_stream (s : Session) : Session :=
  {| live := release (held_stream s) (live s); active := active s;
     held_stream := held_stream s; held_recorder := held_recorder s;
     requests := requests s; is_mounted := is_mounted s;
     says_recording := says_recording s |}.

(** A request joins the pending ones, if the host has media devices. *)
Definition requested (browser : Browser) (n : nat) (s : Session) : Session :=
  if has_mediaDevices browser then with_requests (fun l => l ++ [n]) s else s.

Definition quiet (s : Session) : Prop :=
  (forall i, live s !! i <> Some true) /\ (forall j, active s !! j <> Some true).

Definition held_only (s : Session) : Prop :=
  (forall i, live s !! i = Some true -> held_stream s = Some i) /\
  (forall j, active s !! j = Some true -> held_recorder s = Some j).

Record one_session (s : Session) : Prop := {
  only_the_held : held_only s;
  quiet_while_waiting : requests s <> [] -> quiet s;
  quiet_while_idle : is_mounted s = true -> says_recording s = false -> quiet s;
  one_request : length (requests s) <= 1 }.

(** [a] changes the component [proj] of the world as [f] says. *)
Definition acts_on (A : Type) (proj : World -> A) (a : action) (f : A -> A) : Prop :=
  forall w, proj (a w) = f (proj w).

(** The state [cleanup] leaves. *)
Definition reset (v : revision) (s : State) : State :=
  match v with
  | Preview | Pausable =>
      {| isRecording := false; isPaused := match v with Pausable => false | _ => isPaused s end;
         recordingTime := 0; audioBlob := None; audioUrl := None; isPlaying := false;
         playbackTime := JS.of_nat 0; duration := JS.of_nat 0 |}
  | _ =>
      {| isRecording := false; isPaused := isPaused s; recordingTime := 0;
         audioBlob := None; audioUrl := audioUrl s; isPlaying := isPlaying s;
         playbackTime := playbackTime s; duration := duration s |}
  end.

Definition revoked (v : revision) (u : option objectURL) : list effect :=
  match v, u with
  | (Preview | Pausable), Some url => [RevokeObjectURL url]
  | _, _ => []
  end.

Definition start_failure : list effect :=
  [ ConsoleError "Error starting recording:";
    Alert "Could not access microphone. Please check permissions.";
    OnClose ].




(** Does the run request a start only when no request is pending? *)
Fixpoint one_at_a_time (browser : Browser) (v : revision) (es : list event) (w : World) : bool :=
  match es with
  | [] => true
  | e :: es =>
      (negb (requests_start e) ||
       match pendingMedia (host w) with [] => true | _ => false end) &&
      one_at_a_time browser v es (step browser v e w)
  end.

(** ** Proofs *)

(** The widget after it was opened and the host granted the microphone. *)
Definition recording_in (v : revision) : World :=
  run chromium v [MediaGranted 0 1] (mount chromium v true).


(** The [Pausable] widget, recording again after a pause. *)
Definition resumed : World :=
  run chromium Pausable [ClickPause; ClickResume] (recording_in Pausable).

(** The running intervals and the id in [timerRef]. *)
Definition clock (w : World) : list nat * option nat :=
  (intervals (host w), timerRef (refs w)).

(** [clearInterval(timerRef.current)] on the clock. *)
Definition cleared (c : list nat * option nat) : list nat * option nat :=
  (match snd c with
   | Some t => filter (fun m => m <> t) (fst c)
   | None => fst c
   end, snd c).

(** The widget is mounted and its state asks for the timer. *)
Definition ticking (v : revision) (w : World) : bool :=
  mounted w && timer_wanted v (state w).

(** One interval, the one in [timerRef], while [ticking]; none otherwise. *)
Definition timer_in_step (v : revision) (w : World) : Prop :=
  if ticking v w
  then exists t, timerRef (refs w) = Some t /\ intervals (host w) = [t]
  else intervals (host w) = [].

(** The events whose callback calls [cleanup]. *)
Definition cleaning_event (e : event) : bool :=
  match e with
  | SetOpen _ | Unmount | ClickCancel | ClickReRecord => true
  | _ => false
  end.

(** At most the interval of [timerRef] is running. *)
Definition at_most_own (c : list nat * option nat) : Prop :=
  fst c = [] \/ exists t, snd c = Some t /\ fst c = [t].

(** A browser that records MP4 only, for the examples. *)
Definition mp4_only : Browser :=
  {| has_mediaDevices := true;
     isTypeSupported := fun type => String.eqb type "audio/mp4";
     default_mimeType := "audio/mp4";
     Number_toString_other := fun _ => EmptyString |}.

(** The streams of the host and the one in [streamRef]. *)
Definition microphone (w : World) : list MediaStream * option nat :=
  (streams (host w), streamRef (refs w)).

(** Is every [onSend] of the log followed at once by [onClose]? *)
Fixpoint closes_each_send (l : list effect) : bool :=
  match l with
  | [] => true
  | e :: r =>
      (if is_send e then match r with OnClose :: _ => true | _ => false end else true)
      && closes_each_send r
  end.

(** The events whose callback can call [onSend]: the click on Send,
    and in [AutoSend] the timeout set by [onstop]. *)
Definition sending_event (v : revision) (e : event) : bool :=
  match e with
  | ClickSend => true
  | Timeout _ => match v with AutoSend => true | _ => false end
  | _ => false
  end.

(** The requests for the microphone that the host has not answered. *)
Definition waiting (w : World) : list nat := pendingMedia (host w).




Ltac break_world w :=
  let s := fresh "s" in let r := fresh "r" in let h := fresh "h" in
  destruct w as [? ? s r h ? ?]; destruct s, r, h.

(** ** Numbers *)






Lemma Qtrunc_nonneg (q : Q) : (0 <= q)%Q -> JS.Qtrunc q = Qfloor q.
Proof.
  intros H. unfold JS.Qtrunc. apply Qle_bool_iff in H. now rewrite H.
Qed.

Lemma of_nat_0 : JS.of_nat 0 = JS.Fin 0.
Proof. reflexivity. Qed.

Lemma of_nat_60 : JS.of_nat 60 = JS.Fin 60.
Proof. reflexivity. Qed.



(** ** The player *)

Section Player.
Import VoicePlayer.

Lemma mute_in_sync_step e w : mute_in_sync w -> mute_in_sync (step e w).
Proof.
  unfold mute_in_sync. intros H audio.
  destruct w as [[p c d m l] [a|] n lg]; simpl in *;
    try specialize (H _ eq_refl); simpl in H;
    destruct e; simpl;
    unfold handleLoadedMetadata, handleTimeUpdate, handleEnded, handleCanPlay,
      handleError, togglePlayPause, toggleMute, handleSeek, play_rejected, host_set; simpl;
    repeat match goal with
           | |- context [match ?x with _ => _ end] => destruct x; simpl
           end;
    intros Heq; inversion Heq; subst; simpl; congruence.
Qed.

Lemma reachable_mute_in_sync w : reachable w -> mute_in_sync w.
Proof.
  induction 1 as [|e w _ IH].
  - intros audio Heq. inversion Heq. reflexivity.
  - now apply mute_in_sync_step.
Qed.

Lemma toggleMute_twice_in_sync w : mute_in_sync w -> toggleMute (toggleMute w) = w.
Proof.
  intros H. destruct w as [[p c d m l] [a|] n lg]; [|reflexivity].
  specialize (H _ eq_refl). destruct a as [am ac ad ap]. simpl in H. subst am.
  unfold toggleMute. simpl. rewrite negb_involutive. reflexivity.
Qed.

Lemma player_reachable_run es w : reachable w -> reachable (run es w).
Proof.
  revert w. induction es as [|e es IH]; intros w H; [exact H|].
  apply IH. now constructor.
Qed.

(** C6: in every state the player can reach, two clicks on the mute
    button bring the player back to where it was: [isMuted], the
    [muted] flag of the audio element and everything else. *)
Theorem toggleMute_twice w :
  reachable w -> toggleMute (toggleMute w) = w /\ run [ClickMute; ClickMute] w = w.
Proof.
  intros H. split; apply toggleMute_twice_in_sync, reachable_mute_in_sync, H.
Qed.

Lemma toggleMute_twice_while_muted :
  let w := run [CanPlay; LoadedMetadata (JS.of_nat 10); ClickMute; ClickPlayPause] initial in
  reachable w /\ isMuted (state w) = true /\
  toggleMute (toggleMute w) = w /\ run [ClickMute; ClickMute] w = w.
Proof.
  intros w.
  assert (reachable w) as H by (apply player_reachable_run; constructor).
  split; [exact H|]. split; [reflexivity|]. exact (toggleMute_twice H).
Defined.

End Player.

Section Seek.
Import VoicePlayer.




End Seek.

(** C10: without a completed recording ([audioBlob] is null), and in
    [Manual] also when [recordingTime] is 0, [handleSend] changes
    nothing: no [onSend], no [onClose], the same state. *)
Theorem handleSend_without_recording (browser : Browser) (v : revision) (w : World) :
  audioBlob (state w) = None \/ (v = Manual /\ recordingTime (state w) = 0) ->
  handleSend browser v (state w) w = w.
Proof.
  intros [H | [-> H]].
  - unfold handleSend. rewrite H. destruct v; reflexivity.
  - unfold handleSend. rewrite H. destruct (audioBlob (state w)); reflexivity.
Qed.

Lemma handleSend_before_the_stop_event :
  let w := run chromium Manual [MediaGranted 0 1; ClickStop] (mount chromium Manual true) in
  (audioBlob (state w) = None \/ (Manual = Manual /\ recordingTime (state w) = 0)) /\
  handleSend chromium Manual (state w) w = w.
Proof.
  split; [left; reflexivity|].
  apply handleSend_without_recording. left. reflexivity.
Defined.

(** C2: in [AutoSend], cancelling a recording that was started with the
    microphone button after an earlier one makes the recorder's stop
    event send a message: [onSend] runs although the user cancelled. *)
Theorem cancel_of_the_second_recording_sends :
  let before :=
    run chromium AutoSend
      [MediaGranted 0 1; Tick 1; Tick 1; ClickStop; DataAvailable 0 4000;
       RecorderStop 0; Timeout 0; ClickMic; MediaGranted 0 1; Tick 2]
      (mount chromium AutoSend true) in
  let after :=
    run chromium AutoSend [ClickCancel; DataAvailable 1 900; RecorderStop 1; Timeout 0] before in
  isRecording (state before) = true /\
  log before = [] /\
  log after =
    [OnClose;
     OnSend (voiceMessage_raw {| Blob.size := 900; Blob.type := "audio/webm;codecs=opus" |}
               (JS.of_nat 2));
     OnClose].
Proof. vm_compute. repeat split. Qed.

(** C8: in [Pausable] a rejected [play()] is not logged, the promise
    has no [catch]; in [Preview] the same rejection is logged with
    [console.error].  Neither changes the state. *)
Theorem play_rejection_is_not_logged_in_Pausable :
  let ready := [MediaGranted 0 1; Tick 1; ClickStop; DataAvailable 0 4000; RecorderStop 0] in
  let p := run chromium Pausable (ready ++ [ClickPlay; PlayRejected]) (mount chromium Pausable true) in
  let q := run chromium Preview (ready ++ [ClickPlay; PlayRejected]) (mount chromium Preview true) in
  log p = [] /\ isPlaying (state p) = true /\
  log q = [ConsoleError "Audio play failed:"] /\ isPlaying (state q) = true.
Proof. vm_compute. repeat split. Qed.

(** C3, as stated, fails in [Pausable]: the duration of the message
    is the formatted string, and it has [audioUrl] and no [mimeType]. *)
Lemma Pausable_message_has_formatted_duration_and_no_mimeType :
  let w := run chromium Pausable
             [MediaGranted 0 1; Tick 1; Tick 1; Tick 1; ClickStop; DataAvailable 0 4000;
              RecorderStop 0; ProbeLoadedMetadata (JS.Fin (32 # 10)); ClickSend]
             (mount chromium Pausable true) in
  exists m, sends (log w) = [m] /\
    Obj.get "duration" m = Some (Obj.Str "0:03") /\
    Obj.get "rawDuration" m = None /\
    Obj.get "mimeType" m = None /\
    Obj.get "audioUrl" m = Some (Obj.Url (BlobURL 0)).
Proof. eexists. vm_compute. repeat split. Qed.

(** ** What an action leaves true *)

Lemma preserves_skip P : preserves P skip.
Proof. intros w H. exact H. Qed.

Lemma preserves_and_then P a b :
  preserves P a -> preserves P b -> preserves P (and_then a b).
Proof. intros Ha Hb w H. apply Hb, Ha, H. Qed.

Lemma preserves_read P A (get : World -> A) k :
  (forall x, preserves P (k x)) -> preserves P (read get k).
Proof. intros Hk w H. apply Hk, H. Qed.

Lemma preserves_turn P v cb :
  (forall s, preserves P (cb s)) ->
  (forall s, preserves P (timer_effect v s)) ->
  preserves P (attach_audioRef v) ->
  (forall s, preserves P (set_state s)) ->
  preserves P (turn v cb).
Proof.
  intros Hcb Ht Ha Hs w H. unfold turn.
  destruct (mounted w).
  - apply (preserves_and_then (Ht _) Ha), Hcb, H.
  - apply Hs, Hcb, H.
Qed.

Lemma preserves_step P browser v e :
  (forall e s, preserves P (callback browser v e s)) ->
  (forall s, preserves P (timer_effect v s)) ->
  preserves P (attach_audioRef v) ->
  (forall s, preserves P (set_state s)) ->
  preserves P (set_mounted false) ->
  preserves P (step browser v e).
Proof.
  intros Hcb Ht Ha Hs Hm w H. unfold step.
  destruct (enabled v e w); [|exact H].
  destruct e;
    try (apply preserves_turn; [intros s; apply Hcb | exact Ht | exact Ha | exact Hs | exact H]).
  apply Hm, Hs. exact (Hcb Unmount (state w) w H).
Qed.

Lemma reachable_run browser v es w :
  reachable browser v w -> reachable browser v (run browser v es w).
Proof.
  revert w. induction es as [|e es IH]; intros w H; [exact H|].
  apply IH. now constructor.
Qed.

Lemma reachable_invariant browser v (P : World -> Prop) :
  (forall b, P (mount browser v b)) ->
  (forall e, preserves P (step browser v e)) ->
  forall w, reachable browser v w -> P w.
Proof.
  intros Hm Hs w H. induction H; [apply Hm | now apply Hs].
Qed.

(** *** Properties of the log alone *)

Section Log.
Variable Q : list effect -> Prop.

Lemma log_with_state f : preserves (on_log Q) (with_state f).
Proof. intros w H. exact H. Qed.
Lemma log_with_refs f : preserves (on_log Q) (with_refs f).
Proof. intros w H. exact H. Qed.
Lemma log_with_host f : preserves (on_log Q) (with_host f).
Proof. intros w H. exact H. Qed.
Lemma log_set_isOpen b : preserves (on_log Q) (set_isOpen b).
Proof. intros w H. exact H. Qed.
Lemma log_set_mounted b : preserves (on_log Q) (set_mounted b).
Proof. intros w H. exact H. Qed.
Lemma log_set_cleanup_audioUrl u : preserves (on_log Q) (set_cleanup_audioUrl u).
Proof. intros w H. exact H. Qed.
Lemma log_clearInterval id : preserves (on_log Q) (clearInterval id).
Proof. destruct id; intros w H; exact H. Qed.
Lemma log_emit e : (forall l, Q l -> Q (l ++ [e])) -> preserves (on_log Q) (emit e).
Proof. intros He w H. apply He, H. Qed.

End Log.

Ltac head_of t :=
  lazymatch t with
  | ?f _ => head_of f
  | _ => t
  end.

Ltac preserve_log on_emit :=
  repeat lazymatch goal with
    | |- preserves _ skip => apply preserves_skip
    | |- preserves _ (emit _) => apply log_emit; on_emit
    | |- preserves _ (and_then _ _) => apply preserves_and_then
    | |- preserves _ (read _ _) => apply preserves_read; intros
    | |- preserves _ (with_state _) => apply log_with_state
    | |- preserves _ (with_refs _) => apply log_with_refs
    | |- preserves _ (with_host _) => apply log_with_host
    | |- preserves _ (set_isOpen _) => apply log_set_isOpen
    | |- preserves _ (set_mounted _) => apply log_set_mounted
    | |- preserves _ (set_cleanup_audioUrl _) => apply log_set_cleanup_audioUrl
    | |- preserves _ (clearInterval _) => apply log_clearInterval
    | |- preserves _ (match ?x with _ => _ end) => destruct x
    | |- preserves _ ?a => let h := head_of a in progress unfold h
    end.

Section Shape.
Variable browser : Browser.

Lemma sends_app l e : sends (l ++ [e]) = sends l ++ sends [e].
Proof. unfold sends. now rewrite flat_map_app. Qed.

Lemma well_shaped_other v l e :
  is_send e = false -> sends_well_shaped browser v l -> sends_well_shaped browser v (l ++ [e]).
Proof.
  intros He H. unfold sends_well_shaped. rewrite sends_app.
  destruct e; try discriminate; simpl; now rewrite app_nil_r.
Qed.

Lemma well_shaped_send v l m :
  message_shape browser v m -> sends_well_shaped browser v l -> sends_well_shaped browser v (l ++ [OnSend m]).
Proof.
  intros Hm H. unfold sends_well_shaped. rewrite sends_app. simpl.
  apply Forall_app. split; [exact H | now constructor].
Qed.

Lemma raw_shape v blob n : v <> Pausable -> message_shape browser v (voiceMessage_raw blob n).
Proof.
  intros Hv. exists blob. repeat split; destruct v; try congruence; simpl; eauto.
Qed.

Ltac shape :=
  preserve_log
    ltac:(let l := fresh "l" in let Hl := fresh "Hl" in
          intros l Hl;
          first [ apply well_shaped_other; [reflexivity | exact Hl]
                | apply well_shaped_send; [| exact Hl] ]).

Lemma callback_well_shaped v e s :
  preserves (on_log (sends_well_shaped browser v)) (callback browser v e s).
Proof.
  destruct e; unfold callback; shape.
  all: try (apply raw_shape; congruence).
  exists t; repeat split; try reflexivity; eexists; reflexivity.
Qed.

Lemma step_well_shaped v e :
  preserves (on_log (sends_well_shaped browser v)) (step browser v e).
Proof.
  apply preserves_step; intros; try apply callback_well_shaped; shape.
Qed.

(** C3, amended: every message handed to [onSend] has the shape of
    its revision. *)
Theorem every_sent_message_has_the_shape_of_its_revision v w :
  reachable browser v w -> Forall (message_shape browser v) (sends (log w)).
Proof.
  apply (reachable_invariant (P := on_log (sends_well_shaped browser v))).
  - intros b. apply (@preserves_turn (on_log (sends_well_shaped browser v))); intros; shape.
    constructor.
  - intros e. apply step_well_shaped.
Qed.

End Shape.

Lemma sent_message_of_Manual_has_the_shape :
  let w := run chromium Manual
             [MediaGranted 0 1; Tick 1; Tick 1; ClickStop; DataAvailable 0 4000;
              RecorderStop 0; ClickSend]
             (mount chromium Manual true) in
  sends (log w) <> [] /\ Forall (message_shape chromium Manual) (sends (log w)).
Proof.
  intros w. split.
  - vm_compute. discriminate.
  - apply every_sent_message_has_the_shape_of_its_revision.
    apply reachable_run, reachable_mount.
Defined.

Lemma frame_skip : frame skip.
Proof. intros w. reflexivity. Qed.

Lemma frame_and_then a b : frame a -> frame b -> frame (and_then a b).
Proof. intros Ha Hb w. unfold and_then. now rewrite Hb, Ha. Qed.

Lemma frame_read A (get : World -> A) k : (forall x, frame (k x)) -> frame (read get k).
Proof. intros Hk w. apply Hk. Qed.

Lemma frame_setIsPaused b : frame (setIsPaused b).
Proof. intros w. reflexivity. Qed.
Lemma frame_setRecordingTime f : frame (setRecordingTime f).
Proof. intros w. reflexivity. Qed.
Lemma frame_setAudioBlob b : frame (setAudioBlob b).
Proof. intros w. reflexivity. Qed.
Lemma frame_setAudioUrl u : frame (setAudioUrl u).
Proof. intros w. reflexivity. Qed.
Lemma frame_setIsPlaying b : frame (setIsPlaying b).
Proof. intros w. reflexivity. Qed.
Lemma frame_setPlaybackTime x : frame (setPlaybackTime x).
Proof. intros w. reflexivity. Qed.
Lemma frame_setDuration x : frame (setDuration x).
Proof. intros w. reflexivity. Qed.
Lemma frame_set_audioRef a : frame (set_audioRef a).
Proof. intros w. reflexivity. Qed.
Lemma frame_set_chunksRef l : frame (set_chunksRef l).
Proof. intros w. reflexivity. Qed.
Lemma frame_set_timerRef t : frame (set_timerRef t).
Proof. intros w. reflexivity. Qed.
Lemma frame_with_intervals f : frame (with_intervals f).
Proof. intros w. reflexivity. Qed.
Lemma frame_set_next_interval n : frame (set_next_interval n).
Proof. intros w. reflexivity. Qed.
Lemma frame_set_next_url n : frame (set_next_url n).
Proof. intros w. reflexivity. Qed.
Lemma frame_with_pendingTimeouts f : frame (with_pendingTimeouts f).
Proof. intros w. reflexivity. Qed.
Lemma frame_set_pendingProbes n : frame (set_pendingProbes n).
Proof. intros w. reflexivity. Qed.
Lemma frame_set_pendingPlay n : frame (set_pendingPlay n).
Proof. intros w. reflexivity. Qed.
Lemma frame_emit e : frame (emit e).
Proof. intros w. reflexivity. Qed.
Lemma frame_set_isOpen b : frame (set_isOpen b).
Proof. intros w. reflexivity. Qed.
Lemma frame_set_cleanup_audioUrl u : frame (set_cleanup_audioUrl u).
Proof. intros w. reflexivity. Qed.
Lemma frame_clearInterval id : frame (clearInterval id).
Proof. destruct id; intros w; reflexivity. Qed.

Lemma fmap_alter_same A B (f : A -> B) (g : A -> A) i (l : list A) :
  (forall x, f (g x) = f x) -> f <$> alter g i l = f <$> l.
Proof.
  intros H. revert i. induction l as [|x l IH]; intros [|i]; simpl; f_equal; auto.
  apply IH.
Qed.

Lemma frame_stop_queued b j : frame (with_recorders (alter (set_stop_queued b) j)).
Proof.
  intros w. unfold session. cbn. f_equal.
  apply fmap_alter_same. intros r. reflexivity.
Qed.

Ltac frame_tac :=
  repeat lazymatch goal with
    | |- frame skip => apply frame_skip
    | |- frame (and_then _ _) => apply frame_and_then
    | |- frame (read _ _) => apply frame_read; intros
    | |- frame (setIsPaused _) => apply frame_setIsPaused
    | |- frame (setRecordingTime _) => apply frame_setRecordingTime
    | |- frame (setAudioBlob _) => apply frame_setAudioBlob
    | |- frame (setAudioUrl _) => apply frame_setAudioUrl
    | |- frame (setIsPlaying _) => apply frame_setIsPlaying
    | |- frame (setPlaybackTime _) => apply frame_setPlaybackTime
    | |- frame (setDuration _) => apply frame_setDuration
    | |- frame (set_audioRef _) => apply frame_set_audioRef
    | |- frame (set_chunksRef _) => apply frame_set_chunksRef
    | |- frame (set_timerRef _) => apply frame_set_timerRef
    | |- frame (with_intervals _) => apply frame_with_intervals
    | |- frame (set_next_interval _) => apply frame_set_next_interval
    | |- frame (set_next_url _) => apply frame_set_next_url
    | |- frame (with_pendingTimeouts _) => apply frame_with_pendingTimeouts
    | |- frame (set_pendingProbes _) => apply frame_set_pendingProbes
    | |- frame (set_pendingPlay _) => apply frame_set_pendingPlay
    | |- frame (emit _) => apply frame_emit
    | |- frame (set_isOpen _) => apply frame_set_isOpen
    | |- frame (set_cleanup_audioUrl _) => apply frame_set_cleanup_audioUrl
    | |- frame (clearInterval _) => apply frame_clearInterval
    | |- frame (with_recorders (alter (set_stop_queued _) _)) => apply frame_stop_queued
    | |- frame (setIsRecording _) => fail
    | |- frame (set_streamRef _) => fail
    | |- frame (set_mediaRecorderRef _) => fail
    | |- frame (with_streams _) => fail
    | |- frame (with_recorders _) => fail
    | |- frame (with_pendingMedia _) => fail
    | |- frame (match ?x with _ => _ end) => destruct x
    | |- frame ?a => let h := head_of a in progress unfold h
    end.

Lemma frame_timer_effect v s : frame (timer_effect v s).
Proof. frame_tac. Qed.

Lemma frame_attach_audioRef v : frame (attach_audioRef v).
Proof. frame_tac. Qed.

Lemma frame_quiet_callback browser v e s :
  quiet_event e = true -> frame (callback browser v e s).
Proof.
  destruct e; try discriminate; intros _; unfold callback; frame_tac.
Qed.

(** *** What the other callbacks do to the session *)

Lemma alter_unchanged A (f : A -> A) i (l : list A) :
  (forall x, l !! i = Some x -> f x = x) -> alter f i l = l.
Proof.
  revert i. induction l as [|y l IH]; intros [|i] H; simpl; try reflexivity.
  - f_equal. apply H. reflexivity.
  - f_equal. apply IH. intros x Hx. apply H. exact Hx.
Qed.

Lemma is_live_stopped (s : MediaStream) : is_live (map (fun _ => false) s) = false.
Proof. induction s as [|t s IH]; [reflexivity | exact IH]. Qed.

Lemma live_stop_tracks i (l : list MediaStream) :
  is_live <$> alter (map (fun _ => false)) i l = alter (fun _ => false) i (is_live <$> l).
Proof. apply list_fmap_alter, Forall_true. intros s. apply is_live_stopped. Qed.

Lemma active_stop j (l : list MediaRecorder) :
  is_active <$> alter (fun r => set_stop_queued true (set_rec_state inactive r)) j l =
  alter (fun _ => false) j (is_active <$> l).
Proof. apply list_fmap_alter, Forall_true. intros r. reflexivity. Qed.

Lemma active_unchanged j (l : list MediaRecorder) r :
  l !! j = Some r -> is_active r = false ->
  is_active <$> l = alter (fun _ => false) j (is_active <$> l).
Proof.
  intros Hj Hr. symmetry. apply alter_unchanged. intros x Hx.
  rewrite list_lookup_fmap, Hj in Hx. simpl in Hx. congruence.
Qed.

Lemma active_out_of_range j (l : list MediaRecorder) :
  l !! j = None -> is_active <$> l = alter (fun _ => false) j (is_active <$> l).
Proof.
  intros Hj. symmetry. apply alter_unchanged. intros x Hx.
  rewrite list_lookup_fmap, Hj in Hx. discriminate.
Qed.

Lemma maps_and_then a b f g :
  maps a f -> maps b g -> maps (and_then a b) (fun s => g (f s)).
Proof. intros Ha Hb w. unfold and_then. now rewrite Hb, Ha. Qed.

Lemma maps_frame a : frame a -> maps a (fun s => s).
Proof. intros H w. apply H. Qed.

Lemma maps_ext a f g : maps a f -> (forall s, f s = g s) -> maps a g.
Proof. intros H Hfg w. rewrite H. apply Hfg. Qed.

Lemma maps_setIsRecording b : maps (setIsRecording b) (with_says_recording b).
Proof. intros w. reflexivity. Qed.

Lemma maps_with_pendingMedia f : maps (with_pendingMedia f) (with_requests f).
Proof. intros w. reflexivity. Qed.

(** The first statement of [cleanup] and of [stopRecording]. *)
Lemma maps_stop_recorder :
  maps (read (fun w => mediaRecorderRef (refs w)) (fun ref =>
          match ref with
          | Some j => read (fun w => recorders (host w) !! j) (fun r =>
              match r with
              | Some r => if is_active r then MediaRecorder_stop j else skip
              | None => skip
              end)
          | None => skip
          end))
       stop_held_recorder.
Proof.
  intros w. unfold read, stop_held_recorder, release.
  change (held_recorder (session w)) with (mediaRecorderRef (refs w)).
  destruct (mediaRecorderRef (refs w)) as [j|] eqn:Href;
    [destruct (recorders (host w) !! j) as [r|] eqn:Hj; [destruct (is_active r) eqn:Hr|]|];
    unfold skip, session; cbn -[alter]; f_equal;
    eauto using active_stop, active_unchanged, active_out_of_range.
Qed.

(** The second statement of [cleanup] and of [stopRecording]. *)
Lemma maps_stop_tracks :
  maps (read (fun w => streamRef (refs w)) (fun ref =>
          match ref with
          | Some i => stop_tracks i
          | None => skip
          end))
       stop_held_stream.
Proof.
  intros w. unfold read, stop_held_stream, release.
  change (held_stream (session w)) with (streamRef (refs w)).
  destruct (streamRef (refs w)) as [i|] eqn:Href;
    unfold skip, session; cbn -[alter]; f_equal; eauto using live_stop_tracks.
Qed.

Lemma maps_read A (get : World -> A) k f :
  (forall x, maps (k x) f) -> maps (read get k) f.
Proof. intros H w. apply H. Qed.

Ltac maps_step :=
  lazymatch goal with
  | |- maps (and_then _ _) _ => eapply maps_and_then; [maps_step | maps_step]
  | |- maps (setIsRecording _) _ => apply maps_setIsRecording
  | |- maps (with_pendingMedia _) _ => apply maps_with_pendingMedia
  | |- maps (read (fun w => mediaRecorderRef (refs w)) _) _ => apply maps_stop_recorder
  | |- maps (read (fun w => streamRef (refs w)) _) _ => apply maps_stop_tracks
  | |- maps _ _ => apply maps_frame; solve [frame_tac]
  end.

Lemma maps_cleanup v u : maps (cleanup v u) released.
Proof.
  unfold cleanup. eapply maps_ext; [maps_step|]. intros s. reflexivity.
Qed.

Lemma maps_stopRecording v : maps (stopRecording v) released.
Proof.
  unfold stopRecording. eapply maps_ext; [maps_step|]. intros s. reflexivity.
Qed.

Lemma maps_startRecording browser s :
  maps (startRecording browser s) (requested browser (recordingTime s)).
Proof.
  unfold startRecording, requested. destruct (has_mediaDevices browser); maps_step.
Qed.

Ltac maps_tac :=
  lazymatch goal with
  | |- maps (and_then _ _) _ => eapply maps_and_then; [maps_tac | maps_tac]
  | |- maps (cleanup _ _) _ => apply maps_cleanup
  | |- maps (read _ (cleanup _)) _ => apply maps_read; intros; apply maps_cleanup
  | |- maps (stopRecording _) _ => apply maps_stopRecording
  | |- maps (startRecording _ _) _ => apply maps_startRecording
  | |- maps (with_pendingMedia _) _ => apply maps_with_pendingMedia
  | |- maps _ _ => apply maps_frame; solve [frame_tac]
  end.

Lemma active_started (l : list MediaRecorder) r :
  is_active <$> alter (set_rec_state recording) (length l) (l ++ [r]) =
  (is_active <$> l) ++ [true].
Proof.
  induction l as [|x l IH]; simpl; [reflexivity|]. f_equal. exact IH.
Qed.

Lemma maps_resolved browser v n tracks :
  constructor_throws browser v = false ->
  maps (startRecording_resolved browser v n tracks) (resolved tracks).
Proof.
  intros H w. unfold startRecording_resolved. rewrite H.
  unfold session, resolved, and_then, read. cbn -[alter].
  rewrite !length_fmap, fmap_app, active_started. reflexivity.
Qed.

Lemma active_paused j (l : list MediaRecorder) r s :
  l !! j = Some r -> is_active r = true -> s <> inactive ->
  is_active <$> alter (set_rec_state s) j l = is_active <$> l.
Proof.
  intros Hj Hr Hs. revert j Hj.
  induction l as [|x l IH]; intros [|j] Hj; simpl in *; try discriminate.
  - injection Hj as ->. f_equal. rewrite Hr. destruct s; [congruence | reflexivity..].
  - f_equal. apply IH, Hj.
Qed.

Lemma frame_pauseRecording : frame pauseRecording.
Proof.
  intros w. unfold pauseRecording, read.
  destruct (mediaRecorderRef (refs w)) as [j|]; [|reflexivity].
  destruct (recorders (host w) !! j) as [[[] ? ? ?]|] eqn:Hj; try reflexivity.
  unfold session. cbn -[alter]. f_equal.
  eapply active_paused; eauto; discriminate.
Qed.

Lemma frame_resumeRecording : frame resumeRecording.
Proof.
  intros w. unfold resumeRecording, read.
  destruct (mediaRecorderRef (refs w)) as [j|]; [|reflexivity].
  destruct (recorders (host w) !! j) as [[[] ? ? ?]|] eqn:Hj; try reflexivity.
  unfold session. cbn -[alter]. f_equal.
  eapply active_paused; eauto; discriminate.
Qed.

(** *** The invariant *)

Lemma one_session_of_quiet s : quiet s -> length (requests s) <= 1 -> one_session s.
Proof.
  intros [Hl Ha] Hr. split; auto; try (split; assumption).
  split; intros i Hi; [destruct (Hl i Hi) | destruct (Ha i Hi)].
Qed.

Lemma release_quiet held (l : list bool) :
  (forall i, l !! i = Some true -> held = Some i) ->
  forall i, release held l !! i <> Some true.
Proof.
  intros H i Hi. unfold release in Hi. destruct held as [k|].
  - destruct (decide (k = i)) as [->|Hne].
    + rewrite list_lookup_alter in Hi. rewrite decide_True in Hi by reflexivity.
      destruct (l !! i); discriminate.
    + rewrite list_lookup_alter_ne in Hi by exact Hne.
      specialize (H _ Hi). congruence.
  - specialize (H _ Hi). discriminate.
Qed.

Lemma quiet_released s : held_only s -> quiet (released s).
Proof. intros [Hl Ha]. split; apply release_quiet; assumption. Qed.

Lemma quiet_released_twice s : held_only s -> quiet (released (released s)).
Proof.
  intros H. apply quiet_released.
  destruct (quiet_released H) as [Hl Ha].
  split; intros i Hi; [destruct (Hl i Hi) | destruct (Ha i Hi)].
Qed.

Lemma quiet_with_requests f s : quiet s -> quiet (with_requests f s).
Proof. intros H. exact H. Qed.

Lemma with_says_recording_same s : with_says_recording (says_recording s) s = s.
Proof. destruct s; reflexivity. Qed.

Lemma with_says_recording_same_requests f s :
  with_says_recording (says_recording s) (with_requests f s) = with_requests f s.
Proof. destruct s; reflexivity. Qed.

Lemma session_turn_at v cb w s' :
  session (cb (state w) w) = s' ->
  session (turn v cb w) =
  if mounted w then s' else with_says_recording (says_recording (session w)) s'.
Proof.
  intros H. unfold turn. destruct (mounted w) eqn:Hm.
  - unfold and_then. rewrite frame_attach_audioRef, frame_timer_effect. exact H.
  - rewrite <- H. reflexivity.
Qed.

Lemma session_turn v cb w f :
  maps (cb (state w)) f ->
  session (turn v cb w) =
  if mounted w then f (session w)
  else with_says_recording (says_recording (session w)) (f (session w)).
Proof. intros H. apply session_turn_at, H. Qed.

Lemma session_turn_frame v cb w :
  frame (cb (state w)) -> session (turn v cb w) = session w.
Proof.
  intros H. rewrite (@session_turn v cb w (fun s => s)) by (apply maps_frame, H).
  destruct (mounted w); [reflexivity | apply with_says_recording_same].
Qed.

Lemma lookup_snoc_true (l : list bool) b i :
  (forall i, l !! i <> Some true) -> (l ++ [b]) !! i = Some true -> i = length l.
Proof.
  intros Hq Hi. destruct (decide (i < length l)) as [Hlt|Hge].
  - rewrite lookup_app_l in Hi by exact Hlt. destruct (Hq _ Hi).
  - apply lookup_lt_Some in Hi. rewrite length_app in Hi. simpl in Hi. lia.
Qed.

Lemma on_screen_mounted v e w : on_screen v e w = true -> mounted w = true.
Proof.
  unfold on_screen. intros H. destruct (mounted w); [reflexivity | discriminate].
Qed.

Lemma single_request (l : list nat) k :
  length l <= 1 -> is_some (l !! k) = true -> delete k l = [].
Proof.
  intros Hl Hk.
  destruct l as [|x [|y l]]; simpl in *; try lia;
    destruct k as [|k]; simpl in *; try discriminate; reflexivity.
Qed.

Section OneSession.
Variable browser : Browser.
Variable v : revision.
Hypothesis can_record : constructor_throws browser v = false.

Lemma maps_granted k tracks s w n :
  pendingMedia (host w) !! k = Some n ->
  session (callback browser v (MediaGranted k tracks) s w) =
  resolved tracks (with_requests (delete k) (session w)).
Proof.
  intros Hk. unfold callback, read. rewrite Hk.
  unfold and_then. rewrite (@maps_resolved browser v n tracks can_record). reflexivity.
Qed.

Lemma one_session_granted k tracks says s :
  one_session s -> is_some (requests s !! k) = true ->
  (is_mounted s = true -> says = true) ->
  one_session (with_says_recording says (resolved tracks (with_requests (delete k) s))).
Proof.
  intros [Hheld Hwait Hidle Hone] Hk Hsays.
  assert (requests s <> []) as Hne by (intros E; rewrite E in Hk; destruct k; discriminate).
  destruct (Hwait Hne) as [Hl Ha].
  split; unfold with_says_recording, resolved, with_requests; cbn.
  - split; intros i Hi; cbn in Hi |- *; f_equal; symmetry; eapply lookup_snoc_true; eauto.
  - rewrite (@single_request _ _ Hone Hk). congruence.
  - intros Hm E. rewrite (Hsays Hm) in E. discriminate.
  - rewrite (@single_request _ _ Hone Hk). simpl. lia.
Qed.

Lemma step_one_session e w :
  (requests_start e = true -> pendingMedia (host w) = []) ->
  one_session (session w) -> one_session (session (step browser v e w)).
Proof.
  intros Hguard Hinv. unfold step.
  destruct (enabled v e w) eqn:Hen; [|exact Hinv].
  destruct (quiet_event e) eqn:Hq.
  { assert (session (turn v (callback browser v e) w) = session w) as Hs
      by (apply session_turn_frame, frame_quiet_callback, Hq).
    destruct e; try discriminate; rewrite Hs; exact Hinv. }
  pose proof Hinv as [Hheld Hwait Hidle Hone].
  destruct e; try discriminate; cbn [enabled] in Hen.
  - (* SetOpen *)
    apply andb_prop in Hen as [Hm _].
    destruct b.
    + erewrite session_turn by (unfold callback, open_effect; maps_tac).
      rewrite Hm. apply one_session_of_quiet.
      * unfold requested. destruct (has_mediaDevices browser);
          [apply quiet_with_requests|]; apply quiet_released, Hheld.
      * unfold requested. destruct (has_mediaDevices browser); cbn.
        -- change (requests (session w)) with (pendingMedia (host w)).
           rewrite Hguard by reflexivity. simpl. lia.
        -- exact Hone.
    + erewrite session_turn by (unfold callback, open_effect; maps_tac).
      rewrite Hm. apply one_session_of_quiet.
      * apply quiet_released_twice, Hheld.
      * exact Hone.
  - (* Unmount *)
    set (X := unmount v (state w) w).
    assert (session X = released (session w)) as HX.
    { unfold X, unmount, and_then, read.
      rewrite frame_clearInterval. apply maps_cleanup. }
    apply one_session_of_quiet.
    + change (quiet (session X)). rewrite HX. apply quiet_released, Hheld.
    + change (length (requests (session X)) <= 1). rewrite HX. exact Hone.
  - (* MediaGranted *)
    destruct (pendingMedia (host w) !! k) as [n|] eqn:Hk; [|discriminate].
    erewrite session_turn_at by (eapply maps_granted; exact Hk).
    assert (is_some (requests (session w) !! k) = true) as Hk'
      by (change (requests (session w)) with (pendingMedia (host w)); now rewrite Hk).
    destruct (mounted w) eqn:Hm.
    + rewrite <- (with_says_recording_same (resolved _ _)).
      apply one_session_granted; auto.
    + apply one_session_granted; auto.
      change (is_mounted (session w)) with (mounted w). congruence.
  - (* MediaDenied *)
    erewrite session_turn by (unfold callback, startRecording_rejected; maps_tac).
    change (requests (session w)) with (pendingMedia (host w)) in Hwait, Hone.
    destruct (pendingMedia (host w) !! k) as [n|] eqn:Hk; [|discriminate].
    assert (pendingMedia (host w) <> []) as Hne
      by (intros E; rewrite E in Hk; destruct k; discriminate).
    assert (one_session (with_requests (delete k) (session w))) as Hd.
    { apply one_session_of_quiet; [apply quiet_with_requests, Hwait, Hne|].
      change (length (delete k (pendingMedia (host w))) <= 1).
      rewrite length_delete by (rewrite Hk; eauto). lia. }
    destruct (mounted w); [exact Hd|].
    now rewrite with_says_recording_same_requests.
  - (* ClickCancel *)
    pose proof (on_screen_mounted _ _ _ Hen) as Hm.
    erewrite session_turn by (unfold callback, handleCancel; maps_tac). rewrite Hm.
    apply one_session_of_quiet; [apply quiet_released, Hheld | exact Hone].
  - (* ClickStop *)
    pose proof (on_screen_mounted _ _ _ Hen) as Hm.
    erewrite session_turn by (unfold callback; maps_tac). rewrite Hm.
    apply one_session_of_quiet; [apply quiet_released, Hheld | exact Hone].
  - (* ClickMic *)
    pose proof (on_screen_mounted _ _ _ Hen) as Hm.
    assert (isRecording (state w) = false) as Hr.
    { unfold on_screen in Hen. apply andb_prop in Hen as [_ H2].
      apply andb_prop in H2 as [H2 _]. now apply negb_true_iff in H2. }
    erewrite session_turn by (unfold callback; maps_tac). rewrite Hm.
    apply one_session_of_quiet.
    + unfold requested. destruct (has_mediaDevices browser);
        [apply quiet_with_requests|]; apply Hidle; assumption.
    + unfold requested. destruct (has_mediaDevices browser); [|exact Hone].
      change (length (pendingMedia (host w) ++ [recordingTime (state w)]) <= 1).
      rewrite Hguard by reflexivity. simpl. lia.
  - (* ClickPause *)
    rewrite session_turn_frame by apply frame_pauseRecording. exact Hinv.
  - (* ClickResume *)
    rewrite session_turn_frame by apply frame_resumeRecording. exact Hinv.
  - (* ClickReRecord *)
    pose proof (on_screen_mounted _ _ _ Hen) as Hm.
    erewrite session_turn by (unfold callback, reRecord; maps_tac). rewrite Hm.
    apply one_session_of_quiet.
    + unfold requested. destruct (has_mediaDevices browser);
        [apply quiet_with_requests|]; apply quiet_released, Hheld.
    + unfold requested. destruct (has_mediaDevices browser); [|exact Hone].
      change (length (pendingMedia (host w) ++ [recordingTime (state w)]) <= 1).
      rewrite Hguard by reflexivity. simpl. lia.
Qed.

Lemma mount_one_session b : one_session (session (mount browser v b)).
Proof.
  unfold mount. destruct b.
  - erewrite session_turn by maps_tac. cbn [mounted blank].
    apply one_session_of_quiet.
    + unfold requested. destruct (has_mediaDevices browser); split; intros i; cbn;
        destruct i; discriminate.
    + unfold requested. destruct (has_mediaDevices browser); cbn; lia.
  - erewrite session_turn by maps_tac. cbn [mounted blank].
    apply one_session_of_quiet.
    + split; intros i; cbn; destruct i; discriminate.
    + cbn. lia.
Qed.

Lemma reachable_one_session w :
  reachable_one_at_a_time browser v w -> one_session (session w).
Proof.
  induction 1 as [b | e w _ IH Hguard].
  - apply mount_one_session.
  - now apply step_one_session.
Qed.

End OneSession.

(** ** One component of the world at a time *)

Section Projection.
Variables (A : Type) (proj : World -> A).

Lemma acts_skip : acts_on proj skip (fun x => x).
Proof. intros w. reflexivity. Qed.

Lemma acts_and_then a b f g :
  acts_on proj a f -> acts_on proj b g -> acts_on proj (and_then a b) (fun x => g (f x)).
Proof. intros Ha Hb w. unfold and_then. now rewrite Hb, Ha. Qed.

Lemma acts_read B (get : World -> B) k f :
  (forall x, acts_on proj (k x) f) -> acts_on proj (read get k) f.
Proof. intros H w. apply H. Qed.

Lemma acts_same a : (forall w, proj (a w) = proj w) -> acts_on proj a (fun x => x).
Proof. intros H w. apply H. Qed.

Lemma acts_ext a f g : acts_on proj a f -> (forall x, f x = g x) -> acts_on proj a g.
Proof. intros H Hfg w. rewrite H. apply Hfg. Qed.

End Projection.

Lemma state_with_state f : acts_on state (with_state f) f.
Proof. intros w. reflexivity. Qed.

Lemma log_of_emit e : acts_on log (emit e) (fun l => l ++ [e]).
Proof. intros w. reflexivity. Qed.

Ltac acts_atom lem :=
  lazymatch goal with
  | |- acts_on _ _ ?F =>
      tryif is_evar F then lem
      else (eapply acts_ext; [lem | intros ?; reflexivity])
  end.

Ltac acts_tac :=
  try (progress cbv iota);
  lazymatch goal with
  | |- acts_on _ (and_then _ _) _ =>
      acts_atom ltac:(eapply acts_and_then; [acts_tac | acts_tac])
  | |- acts_on _ (read _ _) _ => apply acts_read; intros; acts_tac
  | |- acts_on _ (match ?x with _ => _ end) _ => destruct x; acts_tac
  | |- acts_on state (with_state _) _ => acts_atom ltac:(apply state_with_state)
  | |- acts_on log (emit _) _ => acts_atom ltac:(apply log_of_emit)
  | |- acts_on _ ?a _ =>
      first [ acts_atom ltac:(apply acts_same; intros ?; reflexivity)
            | let h := head_of a in progress unfold h; acts_tac ]
  end.

Lemma state_cleanup v u : acts_on state (cleanup v u) (reset v).
Proof.
  destruct v, u; unfold cleanup, has_preview;
    (eapply acts_ext; [acts_tac | intros s; reflexivity]).
Qed.

Lemma log_cleanup v u : acts_on log (cleanup v u) (fun l => l ++ revoked v u).
Proof.
  destruct v, u; unfold cleanup, has_preview;
    (eapply acts_ext; [acts_tac | intros l; cbn; now rewrite ?app_nil_r]).
Qed.

Lemma log_catch : acts_on log startRecording_catch (fun l => l ++ start_failure).
Proof.
  unfold startRecording_catch. eapply acts_ext; [acts_tac|].
  intros l. cbn. now rewrite <- !app_assoc.
Qed.

Lemma state_catch : acts_on state startRecording_catch (fun s => s).
Proof. unfold startRecording_catch. eapply acts_ext; [acts_tac | reflexivity]. Qed.

Lemma state_timer_effect v s : acts_on state (timer_effect v s) (fun s => s).
Proof. unfold timer_effect. acts_tac. Qed.
Lemma log_timer_effect v s : acts_on log (timer_effect v s) (fun s => s).
Proof. unfold timer_effect. acts_tac. Qed.
Lemma state_attach v : acts_on state (attach_audioRef v) (fun s => s).
Proof. unfold attach_audioRef. acts_tac. Qed.
Lemma log_attach v : acts_on log (attach_audioRef v) (fun s => s).
Proof. unfold attach_audioRef. acts_tac. Qed.



(** ** Opening the widget *)




Section Opening.
Variable browser : Browser.
Variable v : revision.



Lemma state_startRecording s w : state (startRecording browser s w) = state w.
Proof.
  unfold startRecording. destruct (has_mediaDevices browser); [reflexivity|].
  apply state_catch.
Qed.

Lemma log_startRecording s w :
  log (startRecording browser s w) =
  log w ++ (if has_mediaDevices browser then [] else start_failure).
Proof.
  unfold startRecording. destruct (has_mediaDevices browser).
  - now rewrite app_nil_r.
  - apply log_catch.
Qed.

Lemma state_open_effect s w :
  state (open_effect browser v true s w) = reset v (state w).
Proof.
  unfold open_effect, read, and_then.
  change (state (startRecording browser s
                   (set_isOpen true (cleanup v (cleanup_audioUrl w) w))) = reset v (state w)).
  rewrite state_startRecording.
  change (state (cleanup v (cleanup_audioUrl w) w) = reset v (state w)).
  apply state_cleanup.
Qed.







End Opening.


(** ** At most one recording session *)

Lemma In_live_streams w i :
  In i (live_streams w) -> live (session w) !! i = Some true.
Proof.
  unfold live_streams. intros H. apply filter_In in H as [_ H].
  cbn. rewrite list_lookup_fmap.
  destruct (streams (host w) !! i) as [s|]; [|discriminate]. cbn. now rewrite H.
Qed.

Lemma In_active_recorders w j :
  In j (active_recorders w) -> active (session w) !! j = Some true.
Proof.
  unfold active_recorders. intros H. apply filter_In in H as [_ H].
  cbn. rewrite list_lookup_fmap.
  destruct (recorders (host w) !! j) as [r|]; [|discriminate]. cbn. now rewrite H.
Qed.

Lemma at_most_one (l : list nat) (held : option nat) :
  List.NoDup l -> (forall i, In i l -> held = Some i) -> length l <= 1.
Proof.
  intros Hnd H. destruct l as [|a [|b l]]; simpl; try lia.
  assert (a = b) as -> by
    (pose proof (H a (or_introl eq_refl)); pose proof (H b (or_intror (or_introl eq_refl)));
     congruence).
  inversion Hnd as [|? ? Hnotin _]. destruct Hnotin. left. reflexivity.
Qed.

(** C7, as stated, fails: a click on the microphone button while the
    request of the opening is pending leaves two live streams and two
    recording recorders, and the refs hold only the second pair. *)
Lemma two_sessions_after_overlapping_requests :
  let w := run chromium Preview [ClickMic; MediaGranted 0 1; MediaGranted 0 1]
             (mount chromium Preview true) in
  live_streams w = [0; 1] /\ active_recorders w = [0; 1] /\
  streamRef (refs w) = Some 1 /\ mediaRecorderRef (refs w) = Some 1.
Proof. vm_compute. repeat split. Qed.

(** C7, amended: when no start is requested while an earlier request
    waits for the host's answer, and the host can build the recorder,
    at most one stream is live and at most one recorder is recording or
    paused, and they are the ones the refs hold. *)
Theorem one_session_when_requests_do_not_overlap browser v w :
  constructor_throws browser v = false ->
  reachable_one_at_a_time browser v w ->
  length (live_streams w) <= 1 /\
  length (active_recorders w) <= 1 /\
  (forall i, In i (live_streams w) -> streamRef (refs w) = Some i) /\
  (forall j, In j (active_recorders w) -> mediaRecorderRef (refs w) = Some j).
Proof.
  intros Hc Hr. destruct (reachable_one_session Hc Hr) as [[Hl Ha] _ _ _].
  assert (forall i, In i (live_streams w) -> streamRef (refs w) = Some i) as Hs
    by (intros i Hi; apply (Hl i), In_live_streams, Hi).
  assert (forall j, In j (active_recorders w) -> mediaRecorderRef (refs w) = Some j) as Hj
    by (intros j Hi; apply (Ha j), In_active_recorders, Hi).
  repeat split; try assumption.
  - eapply at_most_one; [|exact Hs]. apply List.NoDup_filter, List.seq_NoDup.
  - eapply at_most_one; [|exact Hj]. apply List.NoDup_filter, List.seq_NoDup.
Qed.

Lemma run_one_at_a_time browser v es w :
  reachable_one_at_a_time browser v w ->
  one_at_a_time browser v es w = true ->
  reachable_one_at_a_time browser v (run browser v es w).
Proof.
  revert w. induction es as [|e es IH]; intros w Hw H; [exact Hw|].
  cbn in H. apply andb_prop in H as [He Hes]. apply IH; [|exact Hes].
  constructor; [exact Hw|]. intros Hs. rewrite Hs in He. cbn in He.
  destruct (pendingMedia (host w)); [reflexivity | discriminate].
Qed.

Lemma one_session_after_re_recording :
  let w := run chromium Pausable
             [MediaGranted 0 1; Tick 1; ClickStop; RecorderStop 0; ClickReRecord;
              MediaGranted 0 1]
             (mount chromium Pausable true) in
  live_streams w = [1] /\ length (live_streams w) <= 1 /\ length (active_recorders w) <= 1.
Proof.
  intros w. split; [vm_compute; reflexivity|].
  destruct (@one_session_when_requests_do_not_overlap chromium Pausable w) as (H1 & H2 & _).
  - vm_compute. reflexivity.
  - apply run_one_at_a_time; [constructor | vm_compute; reflexivity].
  - split; assumption.
Defined.

(** ** The duration that is sent *)

Lemma run_app browser v es1 es2 w :
  run browser v (es1 ++ es2) w = run browser v es2 (run browser v es1 w).
Proof. unfold run. apply fold_left_app. Qed.

Lemma ticks_after_grant n k :
  let recording := run chromium Preview [MediaGranted 0 1] (mount chromium Preview true) in
  run chromium Preview (repeat (Tick 1) n) (setRecordingTime (fun _ => k) recording) =
  setRecordingTime (fun _ => n + k) recording.
Proof.
  intros recording. revert k. induction n as [|n IH]; intros k; [reflexivity|].
  change (run chromium Preview (repeat (Tick 1) n)
            (step chromium Preview (Tick 1) (setRecordingTime (fun _ => k) recording)) =
          setRecordingTime (fun _ => S n + k) recording).
  replace (step chromium Preview (Tick 1) (setRecordingTime (fun _ => k) recording))
    with (setRecordingTime (fun _ => k + 1) recording) by (vm_compute; reflexivity).
  rewrite IH. replace (n + (k + 1)) with (S n + k) by lia. reflexivity.
Qed.

(** C1: however long the recording ran, [onstop] sets [duration] to
    the [recordingTime] of the render that called [startRecording]. *)
Theorem onstop_duration_is_the_recordingTime_of_an_old_render (n : nat) :
  let w := run chromium Preview
             ([MediaGranted 0 1] ++ repeat (Tick 1) n ++
              [ClickStop; DataAvailable 0 4000; RecorderStop 0])
             (mount chromium Preview true) in
  recordingTime (state w) = n /\
  duration (state w) = JS.of_nat 0 /\
  sends (log (step chromium Preview ClickSend w)) =
    [voiceMessage_raw {| Blob.size := 4000; Blob.type := "audio/webm" |} (JS.of_nat 0)].
Proof.
  cbv zeta. rewrite !run_app.
  replace (run chromium Preview [MediaGranted 0 1] (mount chromium Preview true))
    with (setRecordingTime (fun _ => 0)
            (run chromium Preview [MediaGranted 0 1] (mount chromium Preview true)))
    by (vm_compute; reflexivity).
  rewrite ticks_after_grant. rewrite Nat.add_0_r.
  vm_compute. repeat split.
Qed.

(** * Further properties of the recorder and the player *)

(** ** The recording *)

(** The widget of revision [v] in [chromium], recording since the
    host granted the request of the opening. *)
Lemma ticks_while_recording v n k :
  run chromium v (repeat (Tick 1) n) (setRecordingTime (fun _ => k) (recording_in v)) =
  setRecordingTime (fun _ => n + k) (recording_in v).
Proof.
  revert k. induction n as [|n IH]; intros k; [reflexivity|].
  change (run chromium v (repeat (Tick 1) n)
            (step chromium v (Tick 1) (setRecordingTime (fun _ => k) (recording_in v))) =
          setRecordingTime (fun _ => S n + k) (recording_in v)).
  replace (step chromium v (Tick 1) (setRecordingTime (fun _ => k) (recording_in v)))
    with (setRecordingTime (fun _ => k + 1) (recording_in v))
    by (destruct v; vm_compute; reflexivity).
  rewrite IH. replace (n + (k + 1)) with (S n + k) by lia. reflexivity.
Qed.

Lemma recorded_for v n :
  run chromium v ([MediaGranted 0 1] ++ repeat (Tick 1) n) (mount chromium v true) =
  setRecordingTime (fun _ => n) (recording_in v).
Proof.
  rewrite run_app. fold (recording_in v).
  replace (recording_in v) with (setRecordingTime (fun _ => 0) (recording_in v)) at 1
    by (destruct v; vm_compute; reflexivity).
  rewrite ticks_while_recording. now rewrite Nat.add_0_r.
Qed.


(** [Manual] sends the seconds counted, when there are any. *)
(** X10: In [Manual], the click on Send hands over the seconds the timer
    counted as [rawDuration]; a recording stopped before the first tick
    is not sent at all. *)
Theorem Manual_sends_the_seconds_counted (n : nat) :
  let w := run chromium Manual
             ([MediaGranted 0 1] ++ repeat (Tick 1) n ++
              [ClickStop; DataAvailable 0 4000; RecorderStop 0; ClickSend])
             (mount chromium Manual true) in
  sends (log w) =
    match n with
    | 0 => []
    | _ => [voiceMessage_raw {| Blob.size := 4000; Blob.type := "audio/webm;codecs=opus" |}
              (JS.of_nat n)]
    end.
Proof.
  cbv zeta. rewrite app_assoc, run_app, recorded_for.
  destruct n; vm_compute; reflexivity.
Qed.






Lemma ticks_without_timer browser v t m w :
  intervals (host w) = [] -> run browser v (repeat (Tick t) m) w = w.
Proof.
  intros H. induction m as [|m IH]; [reflexivity|].
  change (run browser v (repeat (Tick t) m) (step browser v (Tick t) w) = w).
  replace (step browser v (Tick t) w) with w; [exact IH|].
  unfold step. cbn [enabled]. rewrite H. reflexivity.
Qed.

Lemma ticks_after_resuming n k :
  run chromium Pausable (repeat (Tick 2) n) (setRecordingTime (fun _ => k) resumed) =
  setRecordingTime (fun _ => n + k) resumed.
Proof.
  revert k. induction n as [|n IH]; intros k; [reflexivity|].
  change (run chromium Pausable (repeat (Tick 2) n)
            (step chromium Pausable (Tick 2) (setRecordingTime (fun _ => k) resumed)) =
          setRecordingTime (fun _ => S n + k) resumed).
  replace (step chromium Pausable (Tick 2) (setRecordingTime (fun _ => k) resumed))
    with (setRecordingTime (fun _ => k + 1) resumed) by (vm_compute; reflexivity).
  rewrite IH. replace (n + (k + 1)) with (S n + k) by lia. reflexivity.
Qed.

(** X11: In [Pausable], the seconds of a pause are not counted: after [n]
    seconds of recording, a pause of any length and [k] more seconds
    after resuming, the widget shows [n + k] seconds, and the recorder
    is recording again. *)
Theorem the_pause_is_not_counted (n m k : nat) :
  let w := run chromium Pausable
             ([MediaGranted 0 1] ++ repeat (Tick 1) n ++ [ClickPause] ++
              repeat (Tick 1) m ++ [ClickResume] ++ repeat (Tick 2) k)
             (mount chromium Pausable true) in
  recordingTime (state w) = n + k /\
  isRecording (state w) = true /\ isPaused (state w) = false /\
  option_map rec_state (recorder_at 0 w) = Some recording.
Proof.
  cbv zeta. rewrite app_assoc, run_app, recorded_for.
  rewrite !run_app.
  rewrite (@ticks_without_timer chromium Pausable 1 m) by (vm_compute; reflexivity).
  replace (run chromium Pausable [ClickResume]
             (run chromium Pausable [ClickPause]
                (setRecordingTime (fun _ => n) (recording_in Pausable))))
    with (setRecordingTime (fun _ => n) resumed) by (vm_compute; reflexivity).
  rewrite ticks_after_resuming.
  split; [cbn; lia|]. vm_compute. repeat split.
Qed.

(** ** The interval timer *)

Lemma clock_clearInterval :
  acts_on clock (read (fun w => timerRef (refs w)) clearInterval) cleared.
Proof.
  intros w. unfold read, clock, cleared. cbn [snd fst].
  destruct (timerRef (refs w)) eqn:E; (apply pair_equal_spec; split; [reflexivity | exact E]).
Qed.

Ltac clock_tac :=
  try (progress cbv iota);
  lazymatch goal with
  | |- acts_on _ (and_then _ _) _ =>
      acts_atom ltac:(eapply acts_and_then; [clock_tac | clock_tac])
  | |- acts_on clock (read (fun w => timerRef (refs w)) clearInterval) _ =>
      acts_atom ltac:(apply clock_clearInterval)
  | |- acts_on _ (read _ _) _ => apply acts_read; intros; clock_tac
  | |- acts_on _ (match ?x with _ => _ end) _ => destruct x; clock_tac
  | |- acts_on _ ?a _ =>
      first [ acts_atom ltac:(apply acts_same; intros ?; reflexivity)
            | let h := head_of a in progress unfold h; clock_tac ]
  end.

Lemma cleared_twice c : cleared (cleared c) = cleared c.
Proof.
  destruct c as [l [t|]]; [|reflexivity]. unfold cleared. cbn [fst snd]. f_equal.
  induction l as [|x l IH]; [reflexivity|].
  cbn. destruct (decide (x <> t)) as [H|H]; cbn.
  - rewrite decide_True by exact H. f_equal. exact IH.
  - exact IH.
Qed.

Lemma clock_cleanup v u : acts_on clock (cleanup v u) cleared.
Proof.
  destruct v, u; unfold cleanup, has_preview;
    (eapply acts_ext; [clock_tac | intros c; reflexivity]).
Qed.

Lemma clock_quiet_callback browser v e s :
  cleaning_event e = false -> acts_on clock (callback browser v e s) (fun c => c).
Proof.
  intros He. destruct e; try discriminate; destruct v; unfold callback; clock_tac.
Qed.

Lemma clock_cleaning_callback browser v e s :
  cleaning_event e = true -> acts_on clock (callback browser v e s) cleared.
Proof.
  intros He. destruct e; try discriminate; unfold callback.
  - destruct b; unfold open_effect.
    + eapply acts_ext.
      * eapply acts_and_then; [apply acts_read; intros; apply clock_cleanup|].
        eapply acts_and_then; [apply acts_same; intros ?; reflexivity|].
        eapply acts_and_then; [|apply acts_same; intros ?; reflexivity].
        unfold startRecording, startRecording_catch.
        destruct (has_mediaDevices browser); apply acts_same; intros ?; reflexivity.
      * intros c. reflexivity.
    + eapply acts_ext.
      * eapply acts_and_then; [apply acts_read; intros; apply clock_cleanup|].
        eapply acts_and_then; [apply acts_same; intros ?; reflexivity|].
        eapply acts_and_then; [apply clock_cleanup|apply acts_same; intros ?; reflexivity].
      * intros c. cbv beta. apply cleared_twice.
  - unfold unmount. eapply acts_ext.
    + eapply acts_and_then; [apply acts_read; intros; apply clock_cleanup|].
      apply clock_clearInterval.
    + intros c. apply cleared_twice.
  - unfold handleCancel. eapply acts_ext.
    + eapply acts_and_then; [apply clock_cleanup | apply acts_same; intros ?; reflexivity].
    + reflexivity.
  - unfold reRecord. eapply acts_ext.
    + eapply acts_and_then; [apply clock_cleanup|].
      unfold startRecording, startRecording_catch.
      destruct (has_mediaDevices browser); apply acts_same; intros ?; reflexivity.
    + reflexivity.
Qed.

Lemma mounted_callback browser v e s :
  acts_on mounted (callback browser v e s) (fun b => b).
Proof. destruct e, v; unfold callback; acts_tac. Qed.

Lemma mounted_timer_effect v s : acts_on mounted (timer_effect v s) (fun b => b).
Proof. unfold timer_effect. acts_tac. Qed.

Lemma mounted_attach v : acts_on mounted (attach_audioRef v) (fun b => b).
Proof. unfold attach_audioRef. acts_tac. Qed.

Lemma clock_attach v : acts_on clock (attach_audioRef v) (fun c => c).
Proof. unfold attach_audioRef. acts_tac. Qed.

Lemma isRecording_reset v s : isRecording (reset v s) = false.
Proof. destruct v; reflexivity. Qed.

Lemma timer_wanted_reset v s : timer_wanted v (reset v s) = false.
Proof. destruct v; reflexivity. Qed.

Lemma state_unmount v s : acts_on state (unmount v s) (reset v).
Proof.
  unfold unmount. eapply acts_ext.
  - eapply acts_and_then; [apply acts_read; intros; apply state_cleanup | acts_tac].
  - reflexivity.
Qed.

Lemma state_cleaning_callback browser v e s w :
  cleaning_event e = true ->
  timer_wanted v (state (callback browser v e s w)) = false.
Proof.
  intros He. destruct e; try discriminate; unfold callback.
  - destruct b.
    + rewrite state_open_effect. apply timer_wanted_reset.
    + unfold open_effect, read, and_then.
      change (timer_wanted v
                (state (cleanup v (audioUrl s)
                          (set_isOpen false (cleanup v (cleanup_audioUrl w) w)))) = false).
      rewrite state_cleanup. apply timer_wanted_reset.
  - rewrite state_unmount. apply timer_wanted_reset.
  - unfold handleCancel, and_then.
    change (timer_wanted v (state (cleanup v (audioUrl s) w)) = false).
    rewrite state_cleanup. apply timer_wanted_reset.
  - unfold reRecord, and_then. rewrite state_startRecording, state_cleanup.
    apply timer_wanted_reset.
Qed.

Lemma in_step_at_most_own v w : timer_in_step v w -> at_most_own (clock w).
Proof.
  unfold timer_in_step, at_most_own, clock. cbn [fst snd].
  destruct (ticking v w); [right | left]; assumption.
Qed.

Lemma cleared_own c : at_most_own c -> fst (cleared c) = [].
Proof.
  destruct c as [l o]. unfold at_most_own, cleared. cbn [fst snd].
  intros [->|(t & -> & ->)]; [destruct o; reflexivity|].
  cbn. now rewrite decide_False by (intros H; now apply H).
Qed.

Lemma cleared_at_most_own c : at_most_own c -> at_most_own (cleared c).
Proof. intros H. left. now apply cleared_own. Qed.

Lemma timer_wanted_deps v s s' :
  timer_deps v s = timer_deps v s' -> timer_wanted v s = timer_wanted v s'.
Proof.
  unfold timer_deps, timer_wanted. intros H. injection H as H1 H2. rewrite H1.
  destruct v; try reflexivity. now rewrite H2.
Qed.

Lemma timer_effect_in_step v s w :
  at_most_own (clock w) -> mounted w = true ->
  (timer_deps v s = timer_deps v (state w) -> timer_in_step v w) ->
  timer_in_step v (timer_effect v s w).
Proof.
  intros Hown Hm Hsame. unfold timer_effect, read.
  destruct (decide (timer_deps v s = timer_deps v (state w))) as [E|E];
    [exact (Hsame E)|].
  unfold and_then.
  pose proof (clock_clearInterval w) as Hc. unfold read in Hc.
  set (w1 := clearInterval (timerRef (refs w)) w) in *.
  assert (H1 : intervals (host w1) = []).
  { change (fst (clock w1) = []). rewrite Hc. now apply cleared_own. }
  assert (Hs1 : state w1 = state w) by (unfold w1; destruct (timerRef (refs w)); reflexivity).
  assert (Hm1 : mounted w1 = true) by (unfold w1; destruct (timerRef (refs w)); exact Hm).
  unfold timer_in_step, ticking.
  destruct (timer_wanted v (state w)) eqn:W.
  - unfold setInterval_timerRef, read, and_then.
    change (if mounted w1 && timer_wanted v (state w1)
            then exists t, Some (next_interval (host w1)) = Some t /\
                           intervals (host w1) ++ [next_interval (host w1)] = [t]
            else intervals (host w1) ++ [next_interval (host w1)] = []).
    rewrite Hm1, Hs1, W, H1. cbn [andb]. eexists. split; reflexivity.
  - pose proof (clock_clearInterval w1) as Hc2. unfold read in Hc2.
    set (w2 := clearInterval (timerRef (refs w1)) w1) in *.
    assert (Hs2 : state w2 = state w)
      by (unfold w2; destruct (timerRef (refs w1)); exact Hs1).
    rewrite Hs2, W, andb_false_r.
    change (fst (clock w2) = []). rewrite Hc2. apply cleared_own. now left.
Qed.

Lemma attach_in_step v w : timer_in_step v w -> timer_in_step v (attach_audioRef v w).
Proof.
  unfold timer_in_step, ticking.
  rewrite (mounted_attach v w), (state_attach v w).
  pose proof (clock_attach v w) as H. unfold clock in H. cbv beta in H.
  injection H as -> ->. auto.
Qed.

Lemma turn_timer_in_step browser v e :
  preserves (timer_in_step v) (turn v (callback browser v e)).
Proof.
  intros w H. unfold turn.
  set (w' := callback browser v e (state w) w).
  assert (Hm : mounted w' = mounted w) by apply mounted_callback.
  assert (Hown : at_most_own (clock w')).
  { unfold w'. destruct (cleaning_event e) eqn:C.
    - rewrite clock_cleaning_callback by exact C.
      apply cleared_at_most_own, in_step_at_most_own with v, H.
    - rewrite clock_quiet_callback by exact C. apply in_step_at_most_own with v, H. }
  destruct (mounted w) eqn:M.
  - unfold and_then. apply attach_in_step, timer_effect_in_step; [exact Hown|exact Hm|].
    intros E. apply timer_wanted_deps in E.
    unfold timer_in_step, ticking in *. rewrite Hm, M, <- E in *. cbn [andb] in *.
    destruct (cleaning_event e) eqn:C.
    + assert (W : timer_wanted v (state w') = false)
        by (apply state_cleaning_callback; exact C).
      rewrite <- E in W. rewrite W in *.
      change (fst (clock w') = []). unfold w'.
      rewrite clock_cleaning_callback by exact C. apply cleared_own. now left.
    + pose proof (@clock_quiet_callback browser v e (state w) C w) as Hc.
      fold w' in Hc. unfold clock in Hc. cbv beta in Hc. injection Hc as -> ->. exact H.
  - unfold timer_in_step, ticking in *. rewrite M in H. cbn [andb] in H.
    change (if mounted w' && timer_wanted v (state w) then
              exists t, timerRef (refs w') = Some t /\ intervals (host w') = [t]
            else intervals (host w') = []).
    rewrite Hm. cbn [andb].
    change (fst (clock w') = []). unfold w'. destruct (cleaning_event e) eqn:C.
    + rewrite clock_cleaning_callback by exact C. apply cleared_own. now left.
    + rewrite clock_quiet_callback by exact C. exact H.
Qed.

Lemma step_timer_in_step browser v e :
  preserves (timer_in_step v) (step browser v e).
Proof.
  intros w H. unfold step. destruct (enabled v e w); [|exact H].
  pose proof (@turn_timer_in_step browser v e w H) as Ht.
  destruct e; try exact Ht.
  unfold timer_in_step, ticking. cbn [mounted set_mounted andb].
  change (fst (clock (callback browser v Unmount (state w) w)) = []).
  rewrite (@clock_cleaning_callback browser v Unmount (state w) eq_refl w).
  apply cleared_own, in_step_at_most_own with v, H.
Qed.

Lemma reachable_timer_in_step browser v w :
  reachable browser v w -> timer_in_step v w.
Proof.
  apply reachable_invariant; [|apply step_timer_in_step].
  intros b. destruct browser as [hm ? ? ?]. destruct hm, b, v; vm_compute; reflexivity.
Qed.

(** X1: Between two events of a mounted or unmounted recorder, the interval
    of [timerRef] is the only one running, and it runs exactly while the
    widget is mounted and recording (and, in [Pausable], not paused). *)
Theorem the_timer_runs_exactly_while_recording browser v w :
  reachable browser v w ->
  if mounted w && timer_wanted v (state w)
  then exists t, timerRef (refs w) = Some t /\ intervals (host w) = [t]
  else intervals (host w) = [].
Proof. apply reachable_timer_in_step. Qed.

Lemma reachable_paused :
  reachable chromium Pausable
    (run chromium Pausable [MediaGranted 0 1; Tick 1; ClickPause] (mount chromium Pausable true)).
Proof. apply reachable_run. constructor. Qed.

Lemma the_timer_is_cleared_on_pause :
  intervals (host (run chromium Pausable [MediaGranted 0 1; Tick 1; ClickPause]
                     (mount chromium Pausable true))) = [].
Proof.
  exact (the_timer_runs_exactly_while_recording reachable_paused).
Defined.

(** X2: While the widget is not recording, is paused or is unmounted, no
    tick of any interval changes anything: the count of seconds stands. *)
Theorem no_tick_unless_recording browser v w id :
  reachable browser v w ->
  mounted w && timer_wanted v (state w) = false ->
  step browser v (Tick id) w = w.
Proof.
  intros H W. apply reachable_timer_in_step in H.
  unfold timer_in_step, ticking in H. rewrite W in H.
  unfold step. cbn [enabled]. rewrite H.
  rewrite bool_decide_false by (apply not_elem_of_nil). reflexivity.
Qed.

Lemma no_tick_while_paused :
  step chromium Pausable (Tick 1)
    (run chromium Pausable [MediaGranted 0 1; Tick 1; ClickPause] (mount chromium Pausable true)) =
  run chromium Pausable [MediaGranted 0 1; Tick 1; ClickPause] (mount chromium Pausable true).
Proof.
  apply (@no_tick_unless_recording chromium Pausable _ 1 reachable_paused).
  vm_compute. reflexivity.
Defined.

(** ** The microphone *)

Lemma nothing_live w : quiet (session w) -> live_streams w = [] /\ active_recorders w = [].
Proof.
  intros [Hl Ha]. split.
  - destruct (live_streams w) as [|i l] eqn:E; [reflexivity|].
    destruct (Hl i). apply In_live_streams. rewrite E. now left.
  - destruct (active_recorders w) as [|j l] eqn:E; [reflexivity|].
    destruct (Ha j). apply In_active_recorders. rewrite E. now left.
Qed.

(** X3: When no start is requested while an earlier request waits, the
    microphone is off whenever the mounted widget does not say that it
    records, and also while a request waits for the host's answer: no
    stream has a live track and no recorder is recording or paused. *)
Theorem the_microphone_is_off_unless_recording browser v w :
  constructor_throws browser v = false ->
  reachable_one_at_a_time browser v w ->
  (mounted w = true /\ isRecording (state w) = false) \/ pendingMedia (host w) <> [] ->
  live_streams w = [] /\ active_recorders w = [].
Proof.
  intros Hc Hr H. destruct (reachable_one_session Hc Hr) as [_ Hwait Hidle _].
  apply nothing_live. destruct H as [[Hm Hs]|Hp].
  - apply Hidle; assumption.
  - apply Hwait, Hp.
Qed.

Lemma the_microphone_is_off_after_stop :
  let w := run chromium Manual [MediaGranted 0 2; Tick 1; ClickStop]
             (mount chromium Manual true) in
  live_streams w = [] /\ active_recorders w = [].
Proof.
  intros w. apply (@the_microphone_is_off_unless_recording chromium Manual w).
  - reflexivity.
  - apply run_one_at_a_time; [constructor | vm_compute; reflexivity].
  - left. vm_compute. split; reflexivity.
Defined.






Lemma reachable_of_one_at_a_time browser v w :
  reachable_one_at_a_time browser v w -> reachable browser v w.
Proof. induction 1; now constructor. Qed.

(** X5: Unmounting switches everything off: when no start was requested
    while an earlier request waited, after the unmount no stream has a
    live track, no recorder is recording or paused and no interval is
    running. *)
Theorem unmounting_switches_everything_off browser v w :
  constructor_throws browser v = false ->
  reachable_one_at_a_time browser v w ->
  mounted w = true ->
  let w' := step browser v Unmount w in
  live_streams w' = [] /\ active_recorders w' = [] /\ intervals (host w') = [].
Proof.
  intros Hc Hr Hm w'.
  destruct (reachable_one_session Hc Hr) as [Hheld _ _ _].
  assert (Hw' : w' = set_mounted false (set_state (state w) (unmount v (state w) w))).
  { unfold w', step. cbn [enabled]. now rewrite Hm. }
  assert (Hq : quiet (session w')).
  { rewrite Hw'.
    change (quiet (session (unmount v (state w) w))).
    assert (session (unmount v (state w) w) = released (session w)) as ->.
    { unfold unmount, and_then, read. rewrite frame_clearInterval. apply maps_cleanup. }
    apply quiet_released, Hheld. }
  destruct (nothing_live Hq) as [Hl Ha]. repeat split; [exact Hl | exact Ha |].
  assert (T : timer_in_step v w').
  { apply reachable_timer_in_step with browser. constructor.
    now apply reachable_of_one_at_a_time. }
  unfold timer_in_step, ticking in T. rewrite Hw' in T. cbn [mounted set_mounted andb] in T.
  rewrite Hw'. exact T.
Qed.

Lemma unmounting_while_recording :
  let w' := step chromium Pausable Unmount
              (run chromium Pausable [MediaGranted 0 1; Tick 1] (mount chromium Pausable true)) in
  live_streams w' = [] /\ active_recorders w' = [] /\ intervals (host w') = [].
Proof.
  apply (@unmounting_switches_everything_off chromium Pausable).
  - reflexivity.
  - apply run_one_at_a_time; [constructor | vm_compute; reflexivity].
  - vm_compute. reflexivity.
Defined.




Lemma microphone_timer_effect v s : acts_on microphone (timer_effect v s) (fun m => m).
Proof. unfold timer_effect. acts_tac. Qed.

Lemma microphone_attach v : acts_on microphone (attach_audioRef v) (fun m => m).
Proof. unfold attach_audioRef. acts_tac. Qed.

Lemma is_live_tracks tracks : 0 < tracks -> is_live (repeat true tracks) = true.
Proof. destruct tracks; [lia | reflexivity]. Qed.

Lemma last_stream_is_live (l : list MediaStream) s w :
  streams (host w) = l ++ [s] -> is_live s = true -> In (length l) (live_streams w).
Proof.
  intros Hw Hs. unfold live_streams. apply filter_In. split.
  - rewrite Hw, length_app. apply in_seq. cbn. lia.
  - rewrite Hw, list_lookup_middle by reflexivity. exact Hs.
Qed.

(** X17: The stream is put into [streamRef] before the recorder is built,
    and the [catch] block does not stop it: when the host cannot record
    the requested type, the alert is shown and [onClose] is called, but
    the microphone stays on, held by [streamRef]. *)
Theorem a_failed_start_leaves_the_microphone_on browser v k n tracks w :
  constructor_throws browser v = true ->
  pendingMedia (host w) !! k = Some n ->
  0 < tracks ->
  let w' := step browser v (MediaGranted k tracks) w in
  log w' = log w ++ start_failure /\
  streamRef (refs w') = Some (length (streams (host w))) /\
  In (length (streams (host w))) (live_streams w').
Proof.
  intros Hc Hk Ht w'.
  set (X := callback browser v (MediaGranted k tracks) (state w) w).
  assert (HX : log X = log w ++ start_failure /\
               microphone X = (streams (host w) ++ [repeat true tracks],
                               Some (length (streams (host w))))).
  { unfold X, callback, read. rewrite Hk. unfold and_then, startRecording_resolved, read, and_then.
    rewrite Hc. split; [|reflexivity].
    unfold startRecording_catch, and_then. cbn. now rewrite <- !app_assoc. }
  destruct HX as [HL HM].
  assert (Hw' : log w' = log X /\ microphone w' = microphone X).
  { unfold w', step. cbn [enabled]. rewrite Hk. cbn [is_some]. unfold turn. fold X.
    destruct (mounted w).
    - unfold and_then.
      rewrite log_attach, log_timer_effect, microphone_attach, microphone_timer_effect.
      split; reflexivity.
    - split; reflexivity. }
  destruct Hw' as [HL' HM']. rewrite HM in HM'. unfold microphone in HM'.
  injection HM' as Hs Hr.
  split; [now rewrite HL'|]. split; [exact Hr|].
  eapply last_stream_is_live; [exact Hs | apply is_live_tracks, Ht].
Qed.

Lemma a_failed_start_with_MP4_only :
  let w' := step mp4_only AutoSend (MediaGranted 0 1) (mount mp4_only AutoSend true) in
  log w' = log (mount mp4_only AutoSend true) ++ start_failure /\
  streamRef (refs w') = Some (length (streams (host (mount mp4_only AutoSend true)))) /\
  In (length (streams (host (mount mp4_only AutoSend true)))) (live_streams w').
Proof.
  apply (@a_failed_start_leaves_the_microphone_on mp4_only AutoSend 0 0 1);
    [reflexivity | reflexivity | lia].
Defined.

(** ** What is sent *)

Lemma closes_each_send_app l t :
  closes_each_send l = true -> closes_each_send t = true ->
  closes_each_send (l ++ t) = true.
Proof.
  intros Hl Ht. induction l as [|e r IH]; [exact Ht|].
  cbn [closes_each_send app] in *. apply andb_prop in Hl as [He Hr].
  rewrite (IH Hr), andb_true_r.
  destruct (is_send e); [|reflexivity].
  destruct r as [|[] r']; try discriminate. reflexivity.
Qed.

Lemma closed_other l e :
  is_send e = false -> closes_each_send l = true -> closes_each_send (l ++ [e]) = true.
Proof.
  intros He Hl. apply closes_each_send_app; [exact Hl|]. cbn. now rewrite He.
Qed.

Lemma closed_send_close m :
  preserves (on_log (fun l => closes_each_send l = true))
    (and_then (emit (OnSend m)) (emit OnClose)).
Proof.
  intros w H. unfold on_log in *. unfold and_then.
  change (closes_each_send ((log w ++ [OnSend m]) ++ [OnClose]) = true).
  rewrite <- app_assoc. apply closes_each_send_app; [exact H | reflexivity].
Qed.

Ltac closing :=
  repeat lazymatch goal with
    | |- preserves _ skip => apply preserves_skip
    | |- preserves _ (and_then (emit (OnSend _)) (emit OnClose)) => apply closed_send_close
    | |- preserves _ (emit _) =>
        apply log_emit;
        let l := fresh "l" in let Hl := fresh "Hl" in
        intros l Hl; apply closed_other; [reflexivity | exact Hl]
    | |- preserves _ (and_then _ _) => apply preserves_and_then
    | |- preserves _ (read _ _) => apply preserves_read; intros
    | |- preserves _ (with_state _) => apply log_with_state
    | |- preserves _ (with_refs _) => apply log_with_refs
    | |- preserves _ (with_host _) => apply log_with_host
    | |- preserves _ (set_isOpen _) => apply log_set_isOpen
    | |- preserves _ (set_mounted _) => apply log_set_mounted
    | |- preserves _ (set_cleanup_audioUrl _) => apply log_set_cleanup_audioUrl
    | |- preserves _ (clearInterval _) => apply log_clearInterval
    | |- preserves _ (match ?x with _ => _ end) => destruct x
    | |- preserves _ ?a => let h := head_of a in progress unfold h
    end.

Lemma callback_closes browser v e s :
  preserves (on_log (fun l => closes_each_send l = true)) (callback browser v e s).
Proof. destruct e; unfold callback; closing. Qed.

Lemma step_closes browser v e :
  preserves (on_log (fun l => closes_each_send l = true)) (step browser v e).
Proof. apply preserves_step; intros; try apply callback_closes; closing. Qed.

(** X6: Whatever happened to the widget, every call of [onSend] was
    followed at once by a call of [onClose]. *)
Theorem every_onSend_is_followed_by_onClose browser v w :
  reachable browser v w -> closes_each_send (log w) = true.
Proof.
  apply (reachable_invariant (P := on_log (fun l => closes_each_send l = true))).
  - intros b.
    apply (@preserves_turn (on_log (fun l => closes_each_send l = true))); intros; closing.
    reflexivity.
  - intros e. apply step_closes.
Qed.

Lemma every_onSend_of_a_Manual_session :
  closes_each_send
    (log (run chromium Manual
            [MediaGranted 0 1; Tick 1; ClickStop; DataAvailable 0 9; RecorderStop 0; ClickSend]
            (mount chromium Manual true))) = true.
Proof. apply (@every_onSend_is_followed_by_onClose chromium Manual), reachable_run. constructor. Defined.

Ltac silent H :=
  repeat lazymatch goal with
    | |- preserves _ skip => apply preserves_skip
    | |- preserves _ (emit _) =>
        apply log_emit;
        let l := fresh "l" in let Hl := fresh "Hl" in
        intros l Hl; first [ discriminate H | rewrite sends_app, Hl; apply app_nil_r ]
    | |- preserves _ (and_then _ _) => apply preserves_and_then
    | |- preserves _ (read _ _) => apply preserves_read; intros
    | |- preserves _ (with_state _) => apply log_with_state
    | |- preserves _ (with_refs _) => apply log_with_refs
    | |- preserves _ (with_host _) => apply log_with_host
    | |- preserves _ (set_isOpen _) => apply log_set_isOpen
    | |- preserves _ (set_mounted _) => apply log_set_mounted
    | |- preserves _ (set_cleanup_audioUrl _) => apply log_set_cleanup_audioUrl
    | |- preserves _ (clearInterval _) => apply log_clearInterval
    | |- preserves _ (match ?x with _ => _ end) => destruct x
    | |- preserves _ ?a => let h := head_of a in progress unfold h
    end.

Lemma callback_silent browser v e s (sent : list Obj.t) :
  sending_event v e = false ->
  preserves (on_log (fun l => sends l = sent)) (callback browser v e s).
Proof.
  intros H. destruct e; try discriminate H; unfold callback; cbn [sending_event] in H; silent H.
Qed.

(** X7: Nothing is sent behind the user's back, except in [AutoSend]: a
    step adds a message to those handed to [onSend] only if it is the
    click on Send or, in [AutoSend], the timeout that [onstop] set. *)
Theorem only_the_Send_button_sends browser v e w :
  sending_event v e = false ->
  sends (log (step browser v e w)) = sends (log w).
Proof.
  intros H.
  assert (P : preserves (on_log (fun l => sends l = sends (log w))) (step browser v e)).
  { intros w0 H0. unfold step. destruct (enabled v e w0); [|exact H0].
    assert (Ht : on_log (fun l => sends l = sends (log w))
                   (turn v (callback browser v e) w0)).
    { revert w0 H0. apply preserves_turn; intros; try (apply callback_silent, H); silent H. }
    destruct e; try exact Ht.
    revert w0 H0 Ht. intros w0 H0 _. revert w0 H0.
    change (preserves (on_log (fun l => sends l = sends (log w)))
              (fun w0 => set_mounted false (set_state (state w0) (unmount v (state w0) w0)))).
    intros w0 H0. unfold on_log in *.
    change (sends (log (unmount v (state w0) w0)) = sends (log w)).
    revert H0. apply (@callback_silent browser v Unmount (state w0) (sends (log w)) eq_refl w0). }
  apply (P w). reflexivity.
Qed.

Lemma cancelling_in_Manual_sends_nothing :
  let w := run chromium Manual [MediaGranted 0 1; Tick 1; ClickStop; DataAvailable 0 9;
                                RecorderStop 0] (mount chromium Manual true) in
  sends (log (step chromium Manual ClickCancel w)) = sends (log w).
Proof. intros w. apply only_the_Send_button_sends. reflexivity. Defined.

(** ** Recording again *)

Lemma waiting_cleanup v u : acts_on waiting (cleanup v u) (fun l => l).
Proof. destruct v, u; unfold cleanup, has_preview; acts_tac. Qed.

Lemma waiting_timer_effect v s : acts_on waiting (timer_effect v s) (fun l => l).
Proof. unfold timer_effect. acts_tac. Qed.

Lemma waiting_attach v : acts_on waiting (attach_audioRef v) (fun l => l).
Proof. unfold attach_audioRef. acts_tac. Qed.

Lemma waiting_startRecording browser s w :
  waiting (startRecording browser s w) =
  waiting w ++ (if has_mediaDevices browser then [recordingTime s] else []).
Proof.
  unfold startRecording. destruct (has_mediaDevices browser); [reflexivity|].
  symmetry. apply app_nil_r.
Qed.

(** X18: The Re-record button of [Pausable] throws the preview away and asks
    for the microphone again: the state is the one [cleanup] leaves,
    the object URL of the preview is revoked, and one more request is
    waiting (or, without media devices, the failure is reported). *)
Theorem reRecord_discards_the_preview browser w :
  on_screen Pausable ClickReRecord w = true ->
  let w' := step browser Pausable ClickReRecord w in
  state w' = reset Pausable (state w) /\
  log w' = log w ++ revoked Pausable (audioUrl (state w)) ++
           (if has_mediaDevices browser then [] else start_failure) /\
  pendingMedia (host w') =
    pendingMedia (host w) ++ (if has_mediaDevices browser then [recordingTime (state w)] else []).
Proof.
  intros Hon w'.
  assert (Hm : mounted w = true).
  { unfold on_screen in Hon. destruct (mounted w); [reflexivity | discriminate]. }
  assert (Hw' : w' = attach_audioRef Pausable
                       (timer_effect Pausable (state w)
                          (startRecording browser (state w)
                             (cleanup Pausable (audioUrl (state w)) w)))).
  { unfold w', step. change (enabled Pausable ClickReRecord w) with (on_screen Pausable ClickReRecord w).
    rewrite Hon. unfold turn. rewrite Hm. reflexivity. }
  rewrite Hw'. repeat split.
  - rewrite state_attach, state_timer_effect, state_startRecording. apply state_cleanup.
  - rewrite log_attach, log_timer_effect, log_startRecording, log_cleanup.
    now rewrite <- app_assoc.
  - change (waiting (attach_audioRef Pausable
                       (timer_effect Pausable (state w)
                          (startRecording browser (state w)
                             (cleanup Pausable (audioUrl (state w)) w)))) =
            waiting w ++ (if has_mediaDevices browser then [recordingTime (state w)] else [])).
    rewrite waiting_attach, waiting_timer_effect, waiting_startRecording, waiting_cleanup.
    reflexivity.
Qed.

Lemma reRecord_after_a_recording :
  let w := run chromium Pausable [MediaGranted 0 1; Tick 1; ClickStop; DataAvailable 0 9;
                                  RecorderStop 0] (mount chromium Pausable true) in
  let w' := step chromium Pausable ClickReRecord w in
  state w' = reset Pausable (state w) /\
  log w' = log w ++ revoked Pausable (audioUrl (state w)) ++
           (if has_mediaDevices chromium then [] else start_failure) /\
  pendingMedia (host w') =
    pendingMedia (host w) ++ (if has_mediaDevices chromium then [recordingTime (state w)] else []).
Proof.
  intros w. apply (@reRecord_discards_the_preview chromium w). vm_compute. reflexivity.
Defined.

(** ** The two formatTime and the player *)

Lemma Qfloor_of_zero (q : Q) : q == 0 -> Qfloor q = 0%Z.
Proof. intros H. rewrite H. reflexivity. Qed.

Lemma recorder_formatTime_of_zero browser (q : Q) :
  q == 0 -> formatTime browser (JS.Fin q) = "0:00"%string.
Proof.
  intros H. unfold formatTime. rewrite of_nat_60. unfold JS.div, JS.rem.
  change (Qeq_bool 60 0) with false. cbv iota.
  assert (Hd : q / 60 == 0) by (rewrite H; reflexivity).
  rewrite Qtrunc_nonneg by (rewrite Hd; apply Qle_refl).
  unfold JS.Math_floor.
  rewrite (Qfloor_of_zero Hd).
  assert (Hr : q - 60 * inject_Z 0 == 0) by (rewrite H; reflexivity).
  rewrite (Qfloor_of_zero Hr).
  reflexivity.
Qed.

(** X12: The recorder's [formatTime] has no guard: it prints "NaN:NaN" for
    NaN, where the player's prints "0:00"; on every other number the
    two agree. *)
Theorem formatTime_of_the_recorder_and_of_the_player browser (x : JS.number) :
  formatTime browser x =
  if JS.isNaN x then "NaN:NaN"%string
  else VoicePlayer.formatTime (Number_toString_other browser) x.
Proof.
  destruct x as [|s|q]; [reflexivity|reflexivity|].
  unfold VoicePlayer.formatTime. cbn [JS.isNaN orb].
  rewrite of_nat_0. unfold JS.strict_eq.
  destruct (Qeq_bool q 0) eqn:E; [|reflexivity].
  apply Qeq_bool_iff in E. now apply recorder_formatTime_of_zero.
Qed.

(** X13: Once the spinner is gone it does not come back: no event sets
    [isLoading] again, so the play button stays enabled. *)
Theorem isLoading_is_never_set_again (es : list VoicePlayer.event) (w : VoicePlayer.World) :
  VoicePlayer.isLoading (VoicePlayer.state w) = false ->
  VoicePlayer.isLoading (VoicePlayer.state (VoicePlayer.run es w)) = false.
Proof.
  revert w. induction es as [|e es IH]; intros w H; [exact H|].
  apply IH. destruct w as [s [a|] p l]; destruct e; cbn in *; try exact H; try reflexivity.
  - destruct p; exact H.
  - rewrite H. destruct (VoicePlayer.isPlaying s); exact H.
  - destruct (JS.strict_eq _ _); exact H.
  - destruct p; exact H.
  - rewrite H. exact H.
Qed.

Lemma isLoading_after_canplay :
  VoicePlayer.isLoading
    (VoicePlayer.state
       (VoicePlayer.run [VoicePlayer.ClickPlayPause; VoicePlayer.Ended;
                         VoicePlayer.LoadedMetadata JS.NaN]
          (VoicePlayer.step VoicePlayer.CanPlay VoicePlayer.initial))) = false.
Proof. apply isLoading_is_never_set_again. reflexivity. Defined.






